(* ===================================================================== *)
(* Resume_parser: shallow embedding of resume_final.py                     *)
(*                                                                         *)
(* Python str values are modelled as lists of characters whose code points *)
(* lie in U+0000..U+00FF (Latin-1), i.e. Rocq's 8-bit [ascii] read as a    *)
(* code point.  Character classes (\s, \d, \w, str.isspace, str.lower, ...) *)
(* follow CPython on that range.                                           *)
(* ===================================================================== *)

From Stdlib Require Import Bool Arith List Lia ZArith QArith String Ascii Sorted Permutation.
Import ListNotations.
Set Warnings "-register-all".

Open Scope string_scope.
Open Scope nat_scope.
Open Scope list_scope.

Definition pystr := list ascii.

(** A Rocq string literal as a Python str. *)
Definition lit (s : string) : pystr := list_ascii_of_string s.

Definition code (c : ascii) : nat := nat_of_ascii c.
Definition chr (n : nat) : ascii := ascii_of_nat n.

Definition NL : ascii := chr 10.
Definition TAB : ascii := chr 9.
Definition CR : ascii := chr 13.
Definition SP : ascii := chr 32.
Definition NBSP : ascii := chr 160.

Definition in_range (lo hi n : nat) : bool := (lo <=? n) && (n <=? hi).

(* ------------------------------------------------------------------ *)
(* Character classes of CPython restricted to U+0000..U+00FF           *)
(* ------------------------------------------------------------------ *)

(** [str.isspace] and the regex class [\s]. *)
Definition is_space (c : ascii) : bool :=
  let n := code c in
  in_range 9 13 n || in_range 28 31 n || (n =? 32) || (n =? 133) || (n =? 160).

(** The regex class [\d] (only ASCII digits are decimal digits here). *)
Definition is_digit (c : ascii) : bool := in_range 48 57 (code c).

(** [str.isalpha]. *)
Definition is_alpha (c : ascii) : bool :=
  let n := code c in
  in_range 65 90 n || in_range 97 122 n || (n =? 170) || (n =? 181) || (n =? 186)
  || in_range 192 214 n || in_range 216 246 n || in_range 248 255 n.

(** The regex class [\w]: [str.isalnum] or the underscore. *)
Definition is_word (c : ascii) : bool :=
  let n := code c in
  is_alpha c || is_digit c || (n =? 95) || (n =? 178) || (n =? 179) || (n =? 185)
  || in_range 188 190 n.

Definition is_upper_c (c : ascii) : bool :=
  let n := code c in in_range 65 90 n || in_range 192 214 n || in_range 216 222 n.

Definition is_lower_c (c : ascii) : bool :=
  let n := code c in
  in_range 97 122 n || (n =? 170) || (n =? 181) || (n =? 186)
  || in_range 223 246 n || in_range 248 255 n.

Definition lower_c (c : ascii) : ascii :=
  if is_upper_c c then chr (code c + 32) else c.

(** Upper case of one character.  U+00DF becomes "SS"; the upper-case
    forms of U+00B5 and U+00FF lie outside the modelled range and those two
    characters are kept as they are. *)
Definition upper_s (c : ascii) : pystr :=
  let n := code c in
  if in_range 97 122 n || in_range 224 246 n || in_range 248 254 n then [chr (n - 32)]
  else if n =? 223 then lit "SS" else [c].

(** Title case of one character (as [upper_s], but U+00DF gives "Ss"). *)
Definition title_s (c : ascii) : pystr :=
  if code c =? 223 then lit "Ss" else upper_s c.

Definition is_cased (c : ascii) : bool := is_upper_c c || is_lower_c c.

(* ------------------------------------------------------------------ *)
(* str methods                                                         *)
(* ------------------------------------------------------------------ *)

Definition ascii_eqb (a b : ascii) : bool := Ascii.eqb a b.

Fixpoint str_eqb (a b : pystr) : bool :=
  match a, b with
  | [], [] => true
  | x :: a', y :: b' => ascii_eqb x y && str_eqb a' b'
  | _, _ => false
  end.

Definition py_lower (s : pystr) : pystr := map lower_c s.
Definition py_upper (s : pystr) : pystr := flat_map upper_s s.

(** [str.title]: a character is title-cased when the previous one is not
    cased, lower-cased otherwise. *)
Fixpoint title_from (prev_cased : bool) (s : pystr) : pystr :=
  match s with
  | [] => []
  | c :: s' =>
      (if prev_cased then [lower_c c] else title_s c) ++ title_from (is_cased c) s'
  end.
Definition py_title (s : pystr) : pystr := title_from false s.

(** [str.isupper] / [str.islower]. *)
Fixpoint isupper_from (cased : bool) (s : pystr) : bool :=
  match s with
  | [] => cased
  | c :: s' => if is_lower_c c then false else isupper_from (cased || is_upper_c c) s'
  end.
Definition py_isupper (s : pystr) : bool := isupper_from false s.

Fixpoint islower_from (cased : bool) (s : pystr) : bool :=
  match s with
  | [] => cased
  | c :: s' => if is_upper_c c then false else islower_from (cased || is_lower_c c) s'
  end.
Definition py_islower (s : pystr) : bool := islower_from false s.

Definition py_isalpha (s : pystr) : bool :=
  match s with [] => false | _ => forallb is_alpha s end.

Fixpoint lstrip_by (p : ascii -> bool) (s : pystr) : pystr :=
  match s with
  | [] => []
  | c :: s' => if p c then lstrip_by p s' else s
  end.
Definition rstrip_by (p : ascii -> bool) (s : pystr) : pystr :=
  rev (lstrip_by p (rev s)).
Definition strip_by (p : ascii -> bool) (s : pystr) : pystr :=
  rstrip_by p (lstrip_by p s).

(** [str.strip()], [str.rstrip()], [str.strip(chars)]. *)
Definition py_strip (s : pystr) : pystr := strip_by is_space s.
Definition py_rstrip (s : pystr) : pystr := rstrip_by is_space s.
Definition py_strip_chars (chars : pystr) (s : pystr) : pystr :=
  strip_by (fun c => existsb (ascii_eqb c) chars) s.

(** [str.split()] with no argument: maximal runs of non-whitespace. *)
Fixpoint split_ws_acc (cur : pystr) (s : pystr) : list pystr :=
  match s with
  | [] => match cur with [] => [] | _ => [rev cur] end
  | c :: s' =>
      if is_space c then
        match cur with [] => split_ws_acc [] s' | _ => rev cur :: split_ws_acc [] s' end
      else split_ws_acc (c :: cur) s'
  end.
Definition py_split_ws (s : pystr) : list pystr := split_ws_acc [] s.

(** [str.split(sep)] for a one-character separator. *)
Fixpoint split_char_acc (sep : ascii) (cur : pystr) (s : pystr) : list pystr :=
  match s with
  | [] => [rev cur]
  | c :: s' =>
      if ascii_eqb c sep then rev cur :: split_char_acc sep [] s'
      else split_char_acc sep (c :: cur) s'
  end.
Definition py_split_char (sep : ascii) (s : pystr) : list pystr :=
  split_char_acc sep [] s.

(** [sep.join(l)]. *)
Fixpoint py_join (sep : pystr) (l : list pystr) : pystr :=
  match l with
  | [] => []
  | [x] => x
  | x :: l' => x ++ sep ++ py_join sep l'
  end.

Fixpoint py_startswith (pre s : pystr) : bool :=
  match pre, s with
  | [], _ => true
  | a :: pre', b :: s' => ascii_eqb a b && py_startswith pre' s'
  | _, _ => false
  end.

(** [sub in s]. *)
Fixpoint py_contains (sub s : pystr) : bool :=
  py_startswith sub s ||
  match s with [] => false | _ :: s' => py_contains sub s' end.

Definition py_endswith (suf s : pystr) : bool := py_startswith (rev suf) (rev s).

Definition str_mem (x : pystr) (l : list pystr) : bool := existsb (str_eqb x) l.

(** Decimal rendering of a Python int, as in an f-string. *)
Fixpoint digits_rev (fuel n : nat) : pystr :=
  match fuel with
  | 0 => []
  | S f => chr (48 + n mod 10) :: (if n <? 10 then [] else digits_rev f (n / 10))
  end.
Definition nat_to_pystr (n : nat) : pystr := rev (digits_rev (S n) n).
Definition z_to_pystr (z : Z) : pystr :=
  if (z <? 0)%Z then chr 45 :: nat_to_pystr (Z.to_nat (- z)) else nat_to_pystr (Z.to_nat z).

(* ------------------------------------------------------------------ *)
(* A backtracking matcher for the subset of Python's [re] used by the  *)
(* program.  Alternatives are tried left to right, greedy repetitions  *)
(* longest first, lazy ones shortest first, as sre does; repetitions   *)
(* only ever apply to single-character classes in the program.         *)
(* ------------------------------------------------------------------ *)

Inductive regex : Type :=
| Eps                                       (* the empty pattern *)
| Chr (p : ascii -> bool)                   (* one character of a class *)
| Seq (r1 r2 : regex)
| Alt (r1 r2 : regex)                       (* r1|r2 *)
| Rep (p : ascii -> bool) (lo : nat) (hi : option nat) (greedy : bool)
| Group (g : nat) (r : regex)               (* capturing group number g *)
| Bol (multiline : bool)                    (* ^ *)
| Eol (multiline : bool)                    (* $ *)
| WordB.                                    (* \b *)

(** Captures: group number and span, most recent first. *)
Definition caps := list (nat * (nat * nat)).

Fixpoint first_some {A B : Type} (f : A -> option B) (l : list A) : option B :=
  match l with
  | [] => None
  | x :: l' => match f x with Some y => Some y | None => first_some f l' end
  end.

Section Matcher.
Variable s : pystr.

Definition char_at (i : nat) : option ascii := nth_error s i.

Definition char_at_is (p : ascii -> bool) (i : nat) : bool :=
  match char_at i with Some c => p c | None => false end.

(** Length of the run of characters satisfying [p] from [i], at most [fuel]. *)
Fixpoint run_len (p : ascii -> bool) (i fuel : nat) : nat :=
  match fuel with
  | 0 => 0
  | S f => if char_at_is p i then S (run_len p (S i) f) else 0
  end.

(** Repetition counts in the order the engine tries them. *)
Definition rep_counts (p : ascii -> bool) (i lo : nat) (hi : option nat) (greedy : bool)
  : list nat :=
  let cap := match hi with Some h => h | None => List.length s end in
  let L := run_len p i cap in
  let cs := seq lo (S L - lo) in
  if L <? lo then [] else if greedy then rev cs else cs.

Definition at_bol (ml : bool) (i : nat) : bool :=
  (i =? 0) || (ml && match i with 0 => false | S k => char_at_is (ascii_eqb NL) k end).

Definition at_eol (ml : bool) (i : nat) : bool :=
  (i =? List.length s)
  || (if ml then char_at_is (ascii_eqb NL) i
      else (S i =? List.length s) && char_at_is (ascii_eqb NL) i).

Definition at_word_boundary (i : nat) : bool :=
  let before := match i with 0 => false | S k => char_at_is is_word k end in
  let after := char_at_is is_word i in
  xorb before after.

(** [m r i c k]: match [r] at position [i] with captures [c], then run the
    continuation [k] on the end position; the first success is returned. *)
Fixpoint m {A : Type} (r : regex) (i : nat) (c : caps) (k : nat -> caps -> option A)
  : option A :=
  match r with
  | Eps => k i c
  | Chr p => if char_at_is p i then k (S i) c else None
  | Seq r1 r2 => m r1 i c (fun j c' => m r2 j c' k)
  | Alt r1 r2 => match m r1 i c k with Some x => Some x | None => m r2 i c k end
  | Rep p lo hi g => first_some (fun n => k (i + n) c) (rep_counts p i lo hi g)
  | Group g r1 => m r1 i c (fun j c' => k j ((g, (i, j)) :: c'))
  | Bol ml => if at_bol ml i then k i c else None
  | Eol ml => if at_eol ml i then k i c else None
  | WordB => if at_word_boundary i then k i c else None
  end.

(** A match: start, end, captures. *)
Definition mtch := (nat * nat * caps)%type.

(** [pattern.match(s, pos)]: anchored at [i], the first way to succeed. *)
Definition match_at (r : regex) (i : nat) : option mtch :=
  m r i [] (fun j c => Some (i, j, c)).

(** [pattern.fullmatch(s)]: anchored at 0 and required to end at the end,
    with backtracking into the alternatives. *)
Definition fullmatch (r : regex) : option mtch :=
  m r 0 [] (fun j c => if j =? List.length s then Some (0, j, c) else None).

Fixpoint search_from (r : regex) (i fuel : nat) : option mtch :=
  match fuel with
  | 0 => None
  | S f => match match_at r i with
           | Some x => Some x
           | None => search_from r (S i) f
           end
  end.

(** [pattern.search(s, pos)]: the leftmost start position in [pos..len s]. *)
Definition search (r : regex) (pos : nat) : option mtch :=
  search_from r pos (S (List.length s) - pos).

(** Next position to scan from after a match (an empty match advances by one). *)
Definition next_pos (x : mtch) : nat :=
  let '(i, j, _) := x in if j =? i then S j else j.

Fixpoint finditer_from (r : regex) (pos fuel : nat) : list mtch :=
  match fuel with
  | 0 => []
  | S f => match search r pos with
           | None => []
           | Some x => x :: finditer_from r (next_pos x) f
           end
  end.

(** [pattern.finditer(s)]. *)
Definition finditer (r : regex) : list mtch := finditer_from r 0 (S (List.length s)).

Definition slice (i j : nat) : pystr := firstn (j - i) (skipn i s).

Fixpoint sub_from (r : regex) (repl : pystr) (pos fuel : nat) : pystr :=
  match fuel with
  | 0 => skipn pos s
  | S f =>
      match search r pos with
      | None => skipn pos s
      | Some (i, j, c) =>
          slice pos i ++ repl ++
          (if j =? i then slice i (S i) ++ sub_from r repl (S j) f
           else sub_from r repl j f)
      end
  end.

(** [pattern.sub(repl, s)] for a replacement without group references. *)
Definition sub (r : regex) (repl : pystr) : pystr := sub_from r repl 0 (S (List.length s)).

Fixpoint split_from (r : regex) (last pos fuel : nat) : list pystr :=
  match fuel with
  | 0 => [skipn last s]
  | S f =>
      match search r pos with
      | None => [skipn last s]
      | Some (i, j, c) => slice last i :: split_from r j (if j =? i then S j else j) f
      end
  end.

(** [pattern.split(s)] for a pattern without capturing groups. *)
Definition re_split (r : regex) : list pystr := split_from r 0 0 (S (List.length s)).

(** [match.group(g)]. *)
Definition group (x : mtch) (g : nat) : option pystr :=
  let '(_, _, c) := x in
  match find (fun e => fst e =? g) c with
  | Some (_, (a, b)) => Some (slice a b)
  | None => None
  end.

(** [match.group(0)]. *)
Definition group0 (x : mtch) : pystr := let '(i, j, _) := x in slice i j.

End Matcher.

(* Pattern building blocks. *)
Definition c_is (ch : ascii) : ascii -> bool := ascii_eqb ch.
(** A literal character under re.IGNORECASE. *)
Definition c_ci (ch : ascii) : ascii -> bool :=
  fun x => ascii_eqb (lower_c x) (lower_c ch).
Definition c_any_of (chars : pystr) : ascii -> bool :=
  fun x => existsb (ascii_eqb x) chars.
Definition c_never : ascii -> bool := fun _ => false.

Fixpoint seq_of (l : list regex) : regex :=
  match l with [] => Eps | [r] => r | r :: l' => Seq r (seq_of l') end.
Fixpoint alt_of (l : list regex) : regex :=
  match l with [] => Chr c_never | [r] => r | r :: l' => Alt r (alt_of l') end.

(** A literal string, case-sensitive or under re.IGNORECASE. *)
Definition str_lit (w : pystr) : regex := seq_of (map (fun ch => Chr (c_is ch)) w).
Definition str_ci (w : pystr) : regex := seq_of (map (fun ch => Chr (c_ci ch)) w).

Definition star (p : ascii -> bool) : regex := Rep p 0 None true.
Definition plus (p : ascii -> bool) : regex := Rep p 1 None true.
(** [(?:r)?] *)
Definition opt (r : regex) : regex := Alt r Eps.

Definition re_search_b (r : regex) (s : pystr) : bool :=
  match search s r 0 with Some _ => true | None => false end.

(* ================================================================== *)
(* _normalize_text_block  (resume_final.py, lines 24-35)               *)
(* ================================================================== *)

(** [r"\s+\n"] *)
Definition re_ws_nl : regex := Seq (plus is_space) (Chr (c_is NL)).
(** [r"\n{3,}"] *)
Definition re_nl3 : regex := Rep (c_is NL) 3 None true.
(** [r"[\t\r]"] *)
Definition re_tab_cr : regex := Chr (c_any_of [TAB; CR]).
(** [r"\s{2,}"] *)
Definition re_ws2 : regex := Rep is_space 2 None true.
(** [r"^\s*Page\s+\d+\s+(of|/)\s*\d+\s*$"] with re.IGNORECASE | re.MULTILINE *)
Definition re_page_footer : regex :=
  seq_of [Bol true; star is_space; str_ci (lit "Page"); plus is_space; plus is_digit;
          plus is_space; Group 1 (Alt (str_ci (lit "of")) (Chr (c_ci "/"%char)));
          star is_space; plus is_digit; star is_space; Eol true].

(** [txt.replace(" ", " ")] *)
Definition replace_nbsp (t : pystr) : pystr :=
  map (fun c => if ascii_eqb c NBSP then SP else c) t.

(** The whitespace steps, in source order, before the footer removal. *)
Definition normalize_ws (t : pystr) : pystr :=
  let t := replace_nbsp t in
  let t := sub t re_ws_nl [NL] in
  let t := sub t re_nl3 [NL; NL] in
  let t := sub t re_tab_cr [SP] in
  sub t re_ws2 [SP].

Definition remove_page_footers (t : pystr) : pystr := sub t re_page_footer [].

Definition _normalize_text_block (txt : pystr) : pystr :=
  match txt with
  | [] => []
  | _ => py_strip (remove_page_footers (normalize_ws txt))
  end.

(* ================================================================== *)
(* SECTION_PATTERNS and extract_sections_with_pymupdf                  *)
(* (resume_final.py, lines 860-939)                                    *)
(* ================================================================== *)

(** The part of PyMuPDF's [page.get_text("dict")] the sectionizer reads.
    Font sizes and coordinates are floats, kept exactly as rationals. *)
Record span := mk_span { span_text : pystr; span_font : pystr; span_size : Q }.
Definition line := list span.
(** A block: [bbox[0]], [bbox[1]], and its "lines" entry when present
    (image blocks have none). *)
Record block := mk_block { block_x0 : Q; block_y0 : Q; block_lines : option (list line) }.
Record page := mk_page { page_width : Q; page_blocks : list block }.
Definition document := list page.

(** [r"\b(alt1|alt2|...)\b"] compiled with re.IGNORECASE. *)
Definition section_pattern (alts : list string) : regex :=
  seq_of [WordB; Group 1 (alt_of (map (fun a => str_ci (lit a)) alts)); WordB].

(** SECTION_PATTERNS, in dict order. *)
Definition SECTION_PATTERNS : list (pystr * regex) :=
  [ (lit "education", section_pattern ["education"; "academic"; "qualification"; "degree"]);
    (lit "experience", section_pattern ["experience"; "work"; "employment"; "job history";
                                        "professional background"]);
    (lit "skills", section_pattern ["Skills"; "skills"; "technical skills"; "key skills";
                                    "competencies"; "expertise"; "technologies"; "key skills ";
                                    "skills and expertise"; "core skills"; "Skills"; "SKILLS"]);
    (lit "projects", section_pattern ["projects"; "portfolio"; "works"]);
    (lit "certifications", section_pattern ["certifications"; "certificates"; "accreditations"]);
    (lit "summary", section_pattern ["summary"; "profile"; "objective"; "about me";
                                     "professional summary"]);
    (lit "languages", section_pattern ["language"; "languages"; "known languages";
                                       "spoken languages"]) ].

Definition sections_dict := list (pystr * list pystr).

(** [parsed_sections = {k: [] for k in SECTION_PATTERNS}; parsed_sections["others"] = []] *)
Definition initial_sections : sections_dict :=
  map (fun kp => (fst kp, [])) SECTION_PATTERNS ++ [(lit "others", [])].

(** [parsed_sections[key].append(x)]; the key is always present (it is
    "others" or a key of SECTION_PATTERNS), the other case leaves the dict
    unchanged. *)
Definition dict_append (key : pystr) (x : pystr) (d : sections_dict) : sections_dict :=
  map (fun kv => if str_eqb (fst kv) key then (fst kv, snd kv ++ [x]) else kv) d.

Definition Qmax_py (a b : Q) : Q := if Qle_bool b a then a else b.
Definition Qgt_b (a b : Q) : bool := negb (Qle_bool a b).

(** The text, bold flag and maximum font size of a line. *)
Definition line_text_raw (l : line) : pystr := flat_map span_text l.
Definition line_is_bold (l : line) : bool :=
  existsb (fun sp => py_contains (lit "bold") (py_lower (span_font sp))) l.
Definition line_font_size (l : line) : Q :=
  fold_left (fun fs sp => Qmax_py fs (span_size sp)) l 0%Q.

(** The header loop: the first pattern that matches decides, if the line is
    bold or large; a match on a plain line changes nothing. *)
Fixpoint header_scan (pats : list (pystr * regex)) (txt : pystr) (strong : bool)
         (current : pystr) : pystr :=
  match pats with
  | [] => current
  | (sec, pat) :: ps =>
      if re_search_b pat txt then (if strong then sec else header_scan ps txt strong current)
      else header_scan ps txt strong current
  end.

(** One line of the inner loop: state is (current_section, parsed_sections). *)
Definition process_line (st : pystr * sections_dict) (l : line) : pystr * sections_dict :=
  let '(current, d) := st in
  let txt := py_strip (line_text_raw l) in
  match txt with
  | [] => st
  | _ =>
      let current' :=
        if List.length (py_split_ws txt) <=? 7
        then header_scan SECTION_PATTERNS (py_lower txt)
               (line_is_bold l || Qgt_b (line_font_size l) 11%Q) current
        else current in
      (current', dict_append current' txt d)
  end.

Definition process_block (st : pystr * sections_dict) (b : block) : pystr * sections_dict :=
  fold_left process_line (match block_lines b with Some ls => ls | None => [] end) st.

(** [sorted(col_blocks, key=lambda b: b["bbox"][1])]: a stable sort. *)
Fixpoint insert_by_y0 (b : block) (l : list block) : list block :=
  match l with
  | [] => [b]
  | b' :: l' => if Qle_bool (block_y0 b') (block_y0 b) then b' :: insert_by_y0 b l'
                else b :: l
  end.
Definition sort_by_y0 (l : list block) : list block :=
  fold_left (fun acc b => insert_by_y0 b acc) l [].

(** Blocks with lines, split at the page midline by their left edge. *)
Definition left_column (p : page) : list block :=
  filter (fun b => match block_lines b with
                   | Some _ => negb (Qle_bool (page_width p / 2) (block_x0 b))
                   | None => false end) (page_blocks p).
Definition right_column (p : page) : list block :=
  filter (fun b => match block_lines b with
                   | Some _ => Qle_bool (page_width p / 2) (block_x0 b)
                   | None => false end) (page_blocks p).

Definition process_page (st : pystr * sections_dict) (p : page) : pystr * sections_dict :=
  let st := fold_left process_block (sort_by_y0 (left_column p)) st in
  fold_left process_block (sort_by_y0 (right_column p)) st.

Definition parsed_sections (doc : document) : sections_dict :=
  snd (fold_left process_page doc (lit "others", initial_sections)).

(** Final cleanup: [re.sub(r'\s+', ' ', line).strip()], empty lines dropped,
    joined by newlines. *)
Definition clean_section_lines (ls : list pystr) : list pystr :=
  filter (fun l => match l with [] => false | _ => true end)
         (map (fun l => py_strip (sub l (plus is_space) [SP])) ls).

Definition extract_sections_with_pymupdf (doc : document) : list (pystr * pystr) :=
  map (fun kv => (fst kv, py_join [NL] (clean_section_lines (snd kv)))) (parsed_sections doc).

Definition dict_get (d : list (pystr * pystr)) (k : pystr) : option pystr :=
  match find (fun kv => str_eqb (fst kv) k) d with Some (_, v) => Some v | None => None end.

Definition SECTION_TAGS : list pystr :=
  map lit ["education"; "experience"; "skills"; "projects"; "certifications"; "summary";
           "languages"; "others"].

(* ================================================================== *)
(* calculate_total_experience  (resume_final.py, lines 1014-1075)      *)
(* ================================================================== *)

(** A naive [datetime.datetime]. *)
Record datetime := mk_dt { yr : Z; mo : Z; dy : Z; hh : Z; mi : Z; ss : Z; us : Z }.

Fixpoint lex_ltb (a b : list Z) : bool :=
  match a, b with
  | x :: a', y :: b' => (x <? y)%Z || ((x =? y)%Z && lex_ltb a' b')
  | _, _ => false
  end.
Definition dt_fields (d : datetime) : list Z := [yr d; mo d; dy d; hh d; mi d; ss d; us d].
Definition dt_lt (a b : datetime) : bool := lex_ltb (dt_fields a) (dt_fields b).
Definition dt_le (a b : datetime) : bool := negb (dt_lt b a).

(** A date produced by strptime: midnight on the first of the month. *)
Definition first_of (y m : Z) : datetime := mk_dt y m 1 0 0 0 0.

Definition is_leap (y : Z) : bool :=
  ((Z.modulo y 4 =? 0)%Z && negb (Z.modulo y 100 =? 0)%Z) || (Z.modulo y 400 =? 0)%Z.
Definition days_in_month (y m : Z) : Z :=
  if (m =? 2)%Z then (if is_leap y then 29 else 28)%Z
  else if existsb (Z.eqb m) [4; 6; 9; 11]%Z then 30%Z else 31%Z.

(** [dt + relativedelta(months=n)]: the day is clipped to the month length,
    the time of day is kept. *)
Definition add_months (d : datetime) (n : Z) : datetime :=
  let t := (yr d * 12 + (mo d - 1) + n)%Z in
  let y := (t / 12)%Z in
  let m := (Z.modulo t 12 + 1)%Z in
  mk_dt y m (Z.min (dy d) (days_in_month y m)) (hh d) (mi d) (ss d) (us d).

(** The correction loop of [relativedelta(dt1, dt2)]: step the month count
    while [dt2 + months] overshoots [dt1]. *)
Fixpoint rd_adjust (fuel : nat) (dt1 dt2 : datetime) (gt_mode : bool) (months : Z) : Z :=
  match fuel with
  | 0 => months
  | S f =>
      let dtm := add_months dt2 months in
      if (if gt_mode then dt_lt dtm dt1 else dt_lt dt1 dtm)
      then rd_adjust f dt1 dt2 gt_mode (if gt_mode then months + 1 else months - 1)%Z
      else months
  end.

(** [delta = relativedelta(dt1, dt2); delta.years * 12 + delta.months].
    The first estimate is off by at most one month, so the loop fuel is
    never exhausted. *)
Definition relativedelta_months (dt1 dt2 : datetime) : Z :=
  let months := ((yr dt1 - yr dt2) * 12 + (mo dt1 - mo dt2))%Z in
  rd_adjust 13 dt1 dt2 (dt_lt dt1 dt2) months.

(** The month names of the C locale, as strptime's %b and %B know them. *)
Definition month_abbrs : list string :=
  ["jan"; "feb"; "mar"; "apr"; "may"; "jun"; "jul"; "aug"; "sep"; "oct"; "nov"; "dec"].
Definition month_names : list string :=
  ["january"; "february"; "march"; "april"; "may"; "june"; "july"; "august";
   "september"; "october"; "november"; "december"].

Definition d4 : regex := Rep is_digit 4 (Some 4) true.

(** strptime's regexes: [(?P<b>...)\s+(?P<Y>\d\d\d\d)] and friends,
    compiled with re.IGNORECASE; group 1 is the month, group 2 the year. *)
Definition names_re (names : list string) : regex := alt_of (map (fun n => str_ci (lit n)) names).
Definition month_num_re : regex :=
  alt_of [Seq (Chr (c_ci "1"%char)) (Chr (c_any_of (lit "012")));
          Seq (Chr (c_ci "0"%char)) (Chr (c_any_of (lit "123456789")));
          Chr (c_any_of (lit "123456789"))].

Inductive date_format := Fmt_b_Y | Fmt_B_Y | Fmt_m_slash_Y | Fmt_m_dash_Y | Fmt_Y.

Definition format_regex (f : date_format) : regex :=
  match f with
  | Fmt_b_Y => seq_of [Group 1 (names_re month_abbrs); plus is_space; Group 2 d4]
  | Fmt_B_Y => seq_of [Group 1 (names_re month_names); plus is_space; Group 2 d4]
  | Fmt_m_slash_Y => seq_of [Group 1 month_num_re; Chr (c_ci "/"%char); Group 2 d4]
  | Fmt_m_dash_Y => seq_of [Group 1 month_num_re; Chr (c_ci "-"%char); Group 2 d4]
  | Fmt_Y => Group 2 d4
  end.

Fixpoint digits_value (s : pystr) (acc : Z) : Z :=
  match s with
  | [] => acc
  | c :: s' => digits_value s' (acc * 10 + Z.of_nat (code c - 48))%Z
  end.

Fixpoint index_of (x : pystr) (l : list string) (i : Z) : option Z :=
  match l with
  | [] => None
  | n :: l' => if str_eqb x (lit n) then Some i else index_of x l' (i + 1)%Z
  end.

(** [datetime.strptime(s, fmt)]: [format_regex.match(s)], then the match
    must cover the whole string; the year must be at least 1. *)
Definition strptime (s : pystr) (f : date_format) : option datetime :=
  match match_at s (format_regex f) 0 with
  | None => None
  | Some x =>
      let '(_, j, _) := x in
      if negb (j =? List.length s) then None
      else
        let year := match group s x 2 with Some y => digits_value y 0 | None => 1900%Z end in
        let month :=
          match f with
          | Fmt_Y => Some 1%Z
          | Fmt_b_Y => match group s x 1 with
                       | Some b => option_map (Z.add 1) (index_of (py_lower b) month_abbrs 0)
                       | None => None end
          | Fmt_B_Y => match group s x 1 with
                       | Some b => option_map (Z.add 1) (index_of (py_lower b) month_names 0)
                       | None => None end
          | _ => match group s x 1 with Some mm => Some (digits_value mm 0) | None => None end
          end in
        match month with
        | Some mth => if (1 <=? year)%Z then Some (first_of year mth) else None
        | None => None
        end
  end.

(** [parse_date] *)
Definition re_sept : regex := seq_of [WordB; str_ci (lit "Sept"); WordB].
Definition parse_date (date_str : pystr) : option datetime :=
  let s := py_strip (sub date_str re_sept (lit "Sep")) in
  first_some (strptime s) [Fmt_b_Y; Fmt_B_Y; Fmt_m_slash_Y; Fmt_m_dash_Y; Fmt_Y].

(** The month alternatives of [date_range_pattern]:
    [Jan(?:uary)?|Feb(?:ruary)?|...|Sep(?:t)?(?:ember)?|...|Dec(?:ember)?]. *)
Definition month_word_alts : list regex :=
  [ Seq (str_ci (lit "Jan")) (opt (str_ci (lit "uary")));
    Seq (str_ci (lit "Feb")) (opt (str_ci (lit "ruary")));
    Seq (str_ci (lit "Mar")) (opt (str_ci (lit "ch")));
    Seq (str_ci (lit "Apr")) (opt (str_ci (lit "il")));
    str_ci (lit "May");
    Seq (str_ci (lit "Jun")) (opt (str_ci (lit "e")));
    Seq (str_ci (lit "Jul")) (opt (str_ci (lit "y")));
    Seq (str_ci (lit "Aug")) (opt (str_ci (lit "ust")));
    seq_of [str_ci (lit "Sep"); opt (str_ci (lit "t")); opt (str_ci (lit "ember"))];
    Seq (str_ci (lit "Oct")) (opt (str_ci (lit "ober")));
    Seq (str_ci (lit "Nov")) (opt (str_ci (lit "ember")));
    Seq (str_ci (lit "Dec")) (opt (str_ci (lit "ember"))) ].

(** [\d{1,2}[-/]] *)
Definition num_month_prefix : regex :=
  Seq (Rep is_digit 1 (Some 2) true) (Chr (c_any_of (lit "-/"))).

(** [date_range_pattern], compiled with re.IGNORECASE; group 1 is [start],
    group 2 is [end].  The en dash and em dash alternatives of the separator
    are characters above U+00FF and never match a modelled text. *)
Definition date_range_pattern : regex :=
  seq_of
    [ Group 1 (Alt (seq_of [alt_of (month_word_alts ++ [num_month_prefix]); star is_space; d4])
                   d4);
      star is_space;
      alt_of [str_ci (lit "to"); Chr c_never (* U+2013 *); str_ci (lit "-");
              Chr c_never (* U+2014 *); str_ci (lit "until"); str_ci (lit "upto");
              str_ci (lit "through")];
      star is_space;
      Group 2 (alt_of
        [ seq_of [alt_of ([str_ci (lit "Present"); str_ci (lit "Now")] ++ month_word_alts
                          ++ [num_month_prefix]); star is_space; d4];
          d4; str_ci (lit "Present"); str_ci (lit "Now") ]) ].

(** [r'present|now'] with re.IGNORECASE *)
Definition re_present_now : regex := Alt (str_ci (lit "present")) (str_ci (lit "now")).

Definition interval := (datetime * datetime)%type.

(** The (start_dt, end_dt) pair parsed from one match. *)
Definition parse_match (now : datetime) (text : pystr) (x : mtch) : option datetime * option datetime :=
  let start_str := py_strip (match group text x 1 with Some g => g | None => [] end) in
  let end_str := py_strip (match group text x 2 with Some g => g | None => [] end) in
  (parse_date start_str,
   if re_search_b re_present_now end_str then Some now else parse_date end_str).

Definition candidate_intervals (now : datetime) (text : pystr) : list (option datetime * option datetime) :=
  map (parse_match now text) (finditer text date_range_pattern).

(** The body of the [for m in date_range_pattern.finditer(...)] loop. *)
Fixpoint collect_intervals (cands : list (option datetime * option datetime)) : list interval :=
  match cands with
  | [] => []
  | (Some s, Some e) :: rest =>
      if dt_le s e then
        if (yr s <? 1980)%Z then collect_intervals rest
        else if (20 <? yr e - yr s)%Z then collect_intervals rest
        else (s, e) :: collect_intervals rest
      else collect_intervals rest
  | _ :: rest => collect_intervals rest
  end.

(** [intervals.sort(key=lambda x: x[0])]: a stable sort on the start. *)
Fixpoint insert_by_start (iv : interval) (l : list interval) : list interval :=
  match l with
  | [] => [iv]
  | iv' :: l' => if dt_le (fst iv') (fst iv) then iv' :: insert_by_start iv l' else iv :: l
  end.
Definition sort_by_start (l : list interval) : list interval :=
  fold_left (fun acc iv => insert_by_start iv acc) l [].

(** The sweep: [cur] is [(cur_s, cur_e)]. *)
Fixpoint sweep_merge (cur : interval) (l : list interval) : list interval :=
  match l with
  | [] => [cur]
  | (s, e) :: l' =>
      if dt_le s (snd cur)
      then sweep_merge (fst cur, if dt_lt (snd cur) e then e else snd cur) l'
      else cur :: sweep_merge (s, e) l'
  end.

Definition merge_intervals (l : list interval) : list interval :=
  match sort_by_start l with
  | [] => []
  | first :: rest => sweep_merge first rest
  end.

Definition sum_months (merged : list interval) : Z :=
  fold_left (fun acc iv => (acc + relativedelta_months (snd iv) (fst iv))%Z) merged 0%Z.

(** [total_months] after both caps. *)
Definition capped_total_months (now : datetime) (merged : list interval) : Z :=
  let earliest := match merged with iv :: _ => fst iv | [] => now end in
  let max_months := relativedelta_months now earliest in
  Z.min (Z.min (sum_months merged) max_months) (50 * 12).

Definition format_experience (total : Z) : pystr :=
  z_to_pystr (total / 12) ++ lit " years and " ++ z_to_pystr (Z.modulo total 12) ++ lit " months".

Definition zero_experience : pystr := lit "0 years and 0 months".

Definition total_from_intervals (now : datetime) (intervals : list interval) : pystr :=
  match intervals with
  | [] => zero_experience
  | _ => format_experience (capped_total_months now (merge_intervals intervals))
  end.

(** [calculate_total_experience(experience_text)], with [datetime.now()]
    as the argument [now]. *)
Definition calculate_total_experience (now : datetime) (experience_text : pystr) : pystr :=
  total_from_intervals now (collect_intervals (candidate_intervals now experience_text)).

Definition today : datetime := mk_dt 2026 10 17 9 30 0 0.

(* ================================================================== *)
(* extract_skills  (resume_final.py, lines 731-839)                    *)
(* ================================================================== *)

Definition junk_keywords : list string :=
  ["skills"; "tools"; "technologies"; "services"; "languages"; "systems"; "expertise";
   "responsibilities"; "projects"; "summary"; "roles"; "role"; "team"; "teams";
   "functional"; "applications"; "application"; "platforms"; "frameworks";
   "experience"; "methodologies"; "used"; "use"; "using"; "proficient"; "knowledge";
   "worked"; "responsible"; "designing"; "developing"; "testing"; "managing";
   "created"; "performed"; "maintaining"; "executing"; "engineer"; "engineered";
   "helped"; "understanding"; "done"; "skills."; "communication"; "problem";
   "teamwork"; "collaboration"; "leadership"; "interpersonal"; "thinking";
   "adaptability"; "attention"; "critical"; "self"; "fast"; "quick"; "learning";
   "and"; "between"; "to"; "from"; "till"; "since"; "before"; "after"; "year";
   "years"; "etc"; "etc."; "version"; "control"; "expert"; "company"; "client";
   "project"; "organization"; "details"; "working"; "environment"; "task";
   "responsibility"; "objective"; "goal"; "pune"; "mumbai"; "delhi"; "bangalore";
   "hyderabad"; "chennai"; "kolkata"; "india"; "maharashtra"; "karnataka"; "gujarat";
   "rajasthan"; "tamil nadu"; "west bengal"; "lecturer"; "professor"; "manager";
   "developer"; "analyst"; "consultant"; "engineer"; "coordinator"; "specialist";
   "executive"; "officer"; "director"; "lead"; "senior"; "junior"; "bank";
   "coordination"; "organizational"; "confidently"; "typing"; "wpm"; "english";
   "hindi"; "marathi"; "tamil"; "telugu"; "gujarati"; "bengali"].

Definition TECH_TERMS : list string :=
  ["aws"; "azure"; "gcp"; "docker"; "kubernetes"; "helm"; "terraform"; "ansible";
   "jenkins"; "git"; "gitlab"; "python"; "java"; "javascript"; "typescript";
   "node.js"; "go"; "golang"; "ruby"; "php"; "c"; "c++"; "c#"; "react"; "angular";
   "vue"; "next.js"; "nuxt"; "redux"; "html"; "css"; "sass"; "less"; "bootstrap";
   "sql"; "mysql"; "postgresql"; "postgres"; "oracle"; "mongodb"; "hive"; "spark";
   "hadoop"; "pyspark"; "selenium"; "pytest"; "junit"; "testng"; "cypress";
   "playwright"; "jmeter"; "rest"; "rest api"; "graphql"; "soap"; "microservices";
   "ci/cd"; "api"; "pandas"; "numpy"; "scikit-learn"; "sklearn"; "tensorflow";
   "pytorch"; "nlp"; "eda"; "linux"; "windows"; "macos"; "bash"; "shell";
   "powershell"; "jira"; "confluence"; "sap"; "abap"; "hana"; "s/4hana"; "fico"; "mm";
   "sd"; "pp"; "tableau"; "power bi"; "spring"; "hibernate"; "maven"; "gradle";
   "junit"; "mockito"; "kafka"; "redis"; "elasticsearch"; "kibana"; "logstash";
   "grafana"; "prometheus"; "splunk"].

Definition FORCE_UPPER : list string :=
  ["SQL"; "HTML"; "CSS"; "AWS"; "GCP"; "EDA"; "CNN"; "RNN"; "QA"; "REST"; "CI/CD";
   "API"; "SAP"; "ABAP"].

Definition COMPANY_SUFFIXES : list string :=
  ["technologies"; "solutions"; "labs"; "pvt"; "ltd"; "inc"; "llc"; "limited";
   "corporation"; "corp"].

Definition VERB_CLUES : list string :=
  ["implemented"; "designed"; "developed"; "built"; "created"; "managed"; "led";
   "leading"; "owning"; "driving"; "improved"; "optimized"; "maintained"; "executed"].

Definition in_set (x : pystr) (l : list string) : bool := str_mem x (map lit l).

(** MONTHS_RE, with re.IGNORECASE *)
Definition MONTHS_RE : regex :=
  seq_of [WordB;
          Group 1 (names_re ["Jan"; "Feb"; "Mar"; "Apr"; "May"; "Jun"; "Jul"; "Aug"; "Sep";
                             "Sept"; "Oct"; "Nov"; "Dec"; "January"; "February"; "March";
                             "April"; "June"; "July"; "August"; "September"; "October";
                             "November"; "December"]);
          WordB].
(** [r"\b\d{4}\b"] *)
Definition re_year : regex := seq_of [WordB; d4; WordB].
(** [r"[A-Za-z0-9+#./_\- ]+"] *)
Definition re_token_chars : regex :=
  plus (fun c => let n := code c in
                 in_range 65 90 n || in_range 97 122 n || in_range 48 57 n
                 || existsb (Nat.eqb n) [43; 35; 46; 47; 95; 45; 32]).
(** [r"\d+"] *)
Definition re_digits : regex := plus is_digit.
(** [r"(ing|ed)$"] *)
Definition re_ing_ed : regex :=
  Seq (Group 1 (Alt (str_lit (lit "ing")) (str_lit (lit "ed")))) (Eol false).
(** [r"\s+"] *)
Definition re_ws : regex := plus is_space.

Definition fullmatch_b (r : regex) (s : pystr) : bool :=
  match fullmatch s r with Some _ => true | None => false end.

Definition nonempty_str (s : pystr) : bool := match s with [] => false | _ => true end.

Definition is_person_name (s : pystr) : bool :=
  let words := filter nonempty_str (re_split (py_strip s) re_ws) in
  if (2 <=? List.length words) && (List.length words <=? 4)
     && forallb (fun w => if py_isalpha w
                          then py_isupper (firstn 1 w) && py_islower (skipn 1 w)
                          else true) words
  then negb (existsb (fun w => in_set (py_lower w) TECH_TERMS) words)
  else false.

(** [x in stop_words_set] *)
Definition stop_mem (x : pystr) (stop_words_set : list pystr) : bool := str_mem x stop_words_set.

Section Skills.
(** [set(stopwords.words('english'))]: NLTK's corpus, loaded at run time. *)
Variable stop_words_set : list pystr.

Definition is_short_tech_token (tok : pystr) : bool :=
  let t := py_strip tok in
  let nwords := List.length (py_split_ws t) in
  if negb (nonempty_str t) then false
  else if 4 <? nwords then false
  else if negb (fullmatch_b re_token_chars t) then false
  else if py_endswith (lit ".") t && (3 <? nwords) then false
  else if re_search_b MONTHS_RE t || re_search_b re_year t then false
  else if stop_mem (py_lower t) stop_words_set || in_set (py_lower t) junk_keywords then false
  else if fullmatch_b re_digits t then false
  else if (nwords =? 1) && re_search_b re_ing_ed (py_lower t) then false
  else
    let parts := map py_lower (py_split_ws t) in
    if existsb (fun p => in_set p COMPANY_SUFFIXES) parts then false
    else if (match parts with p :: _ => in_set p VERB_CLUES | [] => false end) then false
    else if is_person_name t then false
    else true.

(** The casing applied to an accepted token. *)
Definition case_token (val : pystr) : pystr :=
  let up := py_upper val in
  if in_set up FORCE_UPPER || in_set (py_lower val) TECH_TERMS then up
  else if 1 <? List.length (py_split_ws val)
  then py_join [SP] (map (fun w => if in_set (py_lower w) ["ci/cd"; "api"; "sql"]
                                   then py_upper w else py_title w) (py_split_ws val))
  else py_title val.

(** [r"\(.*?\)"] and [r"[,;/|\n]"], [r":"] *)
Definition re_paren : regex :=
  seq_of [Chr (c_is "("%char); Rep (fun c => negb (ascii_eqb c NL)) 0 None false;
          Chr (c_is ")"%char)].
Definition re_token_sep : regex := Chr (c_any_of (lit ",;/|" ++ [NL])).
Definition re_colon : regex := Chr (c_is ":"%char).

(** [sub.strip().strip("-•|")]; U+2022 lies outside the modelled range. *)
Definition clean_val (x : pystr) : pystr := py_strip_chars (lit "-|") (py_strip x).

Definition line_candidates (line : pystr) : list pystr :=
  let cleaned_line := sub line re_paren [] in
  flat_map (fun token =>
    flat_map (fun x =>
      let val := clean_val x in
      if nonempty_str val && is_short_tech_token val then [case_token val] else [])
      (re_split token re_colon))
    (re_split cleaned_line re_token_sep).

Definition skill_candidates (text : pystr) : list pystr :=
  flat_map line_candidates (filter (fun l => nonempty_str (py_strip l)) (py_split_char NL text)).

End Skills.

(** The [seen]/[result] loop: keep the first candidate of each lower-cased key. *)
Fixpoint dedup_lower (seen : list pystr) (cands : list pystr) : list pystr :=
  match cands with
  | [] => []
  | c :: rest =>
      if str_mem (py_lower c) seen then dedup_lower seen rest
      else c :: dedup_lower (py_lower c :: seen) rest
  end.

Definition extract_skills (stop_words_set : list pystr) (text : pystr) : list pystr :=
  dedup_lower [] (skill_candidates stop_words_set text).

(* ================================================================== *)
(* extract_name (resume_final.py, lines 533-575) and                   *)
(* verify_and_select_name (lines 577-582)                              *)
(* ================================================================== *)

Definition UNKNOWN : pystr := lit "Unknown".

Section Name.
(** The strategies [extract_name] runs once it has a non-empty line list
    (first line with role, labeled block, preface scoring, loose fallback,
    last resort), taken as a function of [lines]. *)
Variable name_strategies : list pystr -> pystr.

Definition extract_name (text : pystr) : pystr :=
  let raw_lines := map py_rstrip (py_split_char NL text) in
  let lines := filter nonempty_str (map py_strip raw_lines) in
  match lines with
  | [] => UNKNOWN
  | _ => name_strategies lines
  end.
End Name.

Definition verify_and_select_name (name1 name2 : pystr) : pystr :=
  if str_eqb name1 name2 || str_eqb name2 UNKNOWN then name1
  else if str_eqb name1 UNKNOWN then name2
  else if List.length name2 <=? List.length name1 then name1 else name2.

(* ================================================================== *)
(* process_resume  (resume_final.py, lines 1078-1134)                  *)
(* ================================================================== *)

(** A raised Python exception: its [str(e)] and whether its class derives
    from [Exception] (KeyboardInterrupt and SystemExit do not). *)
Record exn := mk_exn { exn_str : pystr; exn_is_Exception : bool }.

Inductive outcome (A : Type) : Type :=
| Ok (a : A)
| Raised (e : exn).
Arguments Ok {A} a.
Arguments Raised {A} e.

Definition bind {A B : Type} (x : outcome A) (f : A -> outcome B) : outcome B :=
  match x with Ok a => f a | Raised e => Raised e end.
Notation "x <- c ;; k" := (bind c (fun x => k)) (at level 61, c at next level, right associativity).

(** [try: body except Exception: handler(e)] *)
Definition try_except_Exception {A : Type} (body : outcome A) (handler : exn -> outcome A)
  : outcome A :=
  match body with
  | Ok a => Ok a
  | Raised e => if exn_is_Exception e then handler e else Raised e
  end.

(** The JSON-serialisable object handed to [json.dumps]. *)
Inductive json : Type :=
| JNull
| JStr (s : pystr)
| JList (l : list json)
| JObj (l : list (pystr * json)).

Definition json_opt_str (o : option pystr) : json :=
  match o with Some s => JStr s | None => JNull end.

(** [x or y] on str values. *)
Definition str_or (x y : pystr) : pystr := match x with [] => y | _ => x end.

Definition result_record (name : pystr) (email phone linkedin github location : option pystr)
           (skills : list pystr) (total_exp : pystr) : json :=
  JObj [ (lit "personalInfo",
          JObj [ (lit "name", JStr name); (lit "email", json_opt_str email);
                 (lit "phone", json_opt_str phone); (lit "linkedin", json_opt_str linkedin);
                 (lit "github", json_opt_str github); (lit "location", json_opt_str location) ]);
         (lit "skills", JList (map JStr (match skills with [] => [] | _ => skills end)));
         (lit "total_experience", JStr (str_or total_exp zero_experience)) ].

Definition fallback_record (err : pystr) : json :=
  JObj [ (lit "personalInfo",
          JObj [ (lit "name", JStr UNKNOWN); (lit "email", JNull); (lit "phone", JNull);
                 (lit "linkedin", JNull); (lit "github", JNull); (lit "location", JNull) ]);
         (lit "skills", JList []);
         (lit "total_experience", JStr zero_experience);
         (lit "error", JStr err) ].

Section Pipeline.
(** The steps [process_resume] calls; each may return or raise. *)
Variable get_combined_texts : pystr -> outcome (pystr * pystr * pystr).
Variables extract_email extract_phone extract_linkedin extract_github : pystr -> outcome (option pystr).
Variable extract_name_step : pystr -> outcome pystr.
Variable extract_location : pystr -> outcome (option pystr).
Variable sections_original_step : pystr -> outcome (list (pystr * pystr)).
Variable sections_refined_step : pystr -> outcome (list (pystr * pystr)).
Variable extract_skills_step : pystr -> outcome (list pystr).
Variable calculate_total_experience_step : pystr -> outcome pystr.

Definition get_or_empty (d : list (pystr * pystr)) (k : pystr) : pystr :=
  match dict_get d k with Some v => v | None => [] end.

(** The body of the [try] block. *)
Definition process_resume_body (file_path : pystr) : outcome json :=
  texts <- get_combined_texts file_path ;;
  let '(combined, text_pdfplumber, text_pymupdf) := texts in
  let lin := str_or text_pdfplumber combined in
  email <- extract_email lin ;;
  phone <- extract_phone lin ;;
  linkedin <- extract_linkedin lin ;;
  github <- extract_github lin ;;
  n1 <- extract_name_step lin ;;
  n2 <- extract_name_step (str_or text_pymupdf combined) ;;
  let name := verify_and_select_name n1 n2 in
  location <- extract_location lin ;;
  sections_original <- sections_original_step file_path ;;
  refined_skills_text <-
    try_except_Exception
      (sr <- sections_refined_step file_path ;; Ok (get_or_empty sr (lit "skills")))
      (fun _ => Ok []) ;;
  let skills_text := str_or refined_skills_text (get_or_empty sections_original (lit "skills")) in
  skills <- extract_skills_step skills_text ;;
  total_exp <- calculate_total_experience_step (get_or_empty sections_original (lit "experience")) ;;
  Ok (result_record name email phone linkedin github location skills total_exp).

(** [process_resume(file_path)]: the object it serialises, or the
    exception that escapes it. *)
Definition process_resume (file_path : pystr) : outcome json :=
  try_except_Exception (process_resume_body file_path)
    (fun e => Ok (fallback_record (exn_str e))).
End Pipeline.

(* ---------------- predicates used by the theorems ---------------- *)

(** A pipeline in which text extraction fails with [MemoryError()], an
    [Exception] whose [str] is empty. *)
Definition memory_error : exn := mk_exn [] true.

Definition process_resume_memory_error (file_path : pystr) : outcome json :=
  process_resume (fun _ => Raised memory_error) (fun _ => Ok None) (fun _ => Ok None)
    (fun _ => Ok None) (fun _ => Ok None) (fun _ => Ok UNKNOWN) (fun _ => Ok None)
    (fun _ => Ok []) (fun _ => Ok []) (fun _ => Ok []) (fun _ => Ok zero_experience)
    file_path.

(** [r] keeps some elements of [l], in their order. *)
Inductive subseq {A : Type} : list A -> list A -> Prop :=
| subseq_nil : subseq [] []
| subseq_skip x r l : subseq r l -> subseq r (x :: l)
| subseq_keep x r l : subseq r l -> subseq (x :: r) (x :: l).

Definition interval_ok (iv : interval) : Prop :=
  dt_le (fst iv) (snd iv) = true /\ (1980 <= yr (fst iv))%Z /\ (yr (snd iv) - yr (fst iv) <= 20)%Z.

Definition start_le (x y : interval) : Prop := dt_le (fst x) (fst y) = true.




(** A one-column page: a bold "Experience" line over a plain line. *)
Definition header_doc : document :=
  [mk_page 600%Q [mk_block 0%Q 0%Q (Some [[mk_span (lit "Experience") (lit "Arial-Bold") 12%Q];
                                         [mk_span (lit "Worked at X") (lit "Arial") 10%Q]])]].






(** [str.lstrip()]. *)
Definition py_lstrip (s : pystr) : pystr := lstrip_by is_space s.

(* _dehyphenate_lines (resume_final.py, lines 37-45) *)
(** One iteration of the loop; [out_rev] is [out] in reverse order, so its
    head is [out[-1]]. *)
Definition dehyph_step (out_rev : list pystr) (ln : pystr) : list pystr :=
  match out_rev with
  | last :: rest =>
      if py_endswith (lit "-") (py_rstrip last) && py_islower (firstn 1 ln)
      then (removelast (py_rstrip last) ++ py_lstrip ln) :: rest
      else ln :: out_rev
  | [] => [ln]
  end.

Definition _dehyphenate_lines (lines : list pystr) : list pystr :=
  rev (fold_left dehyph_step lines []).

(* _alt_is_all_caps (resume_final.py, lines 187-189) *)
Definition is_ascii_letter (c : ascii) : bool :=
  in_range 65 90 (code c) || in_range 97 122 (code c).

(** [r"[^A-Za-z]+"] *)
Definition re_non_letters : regex := plus (fun c => negb (is_ascii_letter c)).

Definition _alt_is_all_caps (s : pystr) : bool :=
  let letters := sub s re_non_letters [] in
  match letters with [] => false | _ => py_isupper letters end.

(** [r'[a-zA-Z0-9._%+-]'] *)
Definition email_local_c (c : ascii) : bool :=
  is_ascii_letter c || is_digit c || c_any_of (lit "._%+-") c.
(** [r'[a-zA-Z0-9.-]'] *)
Definition email_domain_c (c : ascii) : bool :=
  is_ascii_letter c || is_digit c || c_any_of (lit ".-") c.
(** [r'[a-zA-Z0-9._%+-]+@[a-zA-Z0-9.-]+\.[a-zA-Z]+'] *)
Definition re_email : regex :=
  seq_of [plus email_local_c; Chr (c_is "@"%char); plus email_domain_c;
          Chr (c_is "."%char); plus is_ascii_letter].

Definition extract_email (text : pystr) : option pystr :=
  match search text re_email 0 with
  | Some x => Some (group0 text x)
  | None => None
  end.

(** [r'[a-zA-Z0-9_-]'] (under re.IGNORECASE no other character of
    U+0000..U+00FF joins the class). *)
Definition url_name_c (c : ascii) : bool :=
  is_ascii_letter c || is_digit c || c_any_of (lit "_-") c.
(** [r'(https?://)?'] *)
Definition re_http_prefix : regex :=
  opt (Group 1 (seq_of [str_lit (lit "http"); Rep (c_is "s"%char) 0 (Some 1) true;
                        str_lit (lit "://")])).
(** [r'(www\.)?'] *)
Definition re_www_prefix : regex := opt (Group 2 (str_lit (lit "www."))).
(** [r'[:\s]*'] *)
Definition re_colon_ws : regex := star (fun c => ascii_eqb c ":"%char || is_space c).

(** [r'(https?://)?(www\.)?(linkedin\.com/in/[a-zA-Z0-9_-]+)'] *)
Definition re_linkedin_url : regex :=
  seq_of [re_http_prefix; re_www_prefix;
          Group 3 (Seq (str_lit (lit "linkedin.com/in/")) (plus url_name_c))].
(** [r'linkedin[:\s]*([a-zA-Z0-9_-]+)'] with re.IGNORECASE *)
Definition re_linkedin_user : regex :=
  seq_of [str_ci (lit "linkedin"); re_colon_ws; Group 1 (plus url_name_c)].

(** Group 1 always takes part in a match of the username patterns. *)
Definition extract_linkedin (text : pystr) : option pystr :=
  match search text re_linkedin_url 0 with
  | Some x =>
      let url := group0 text x in
      Some (if py_startswith (lit "http") url then url else lit "https://" ++ url)
  | None =>
      match search text re_linkedin_user 0 with
      | Some x =>
          let username := match group text x 1 with Some u => u | None => [] end in
          Some (lit "https://www.linkedin.com/in/" ++ username)
      | None => None
      end
  end.

(** [r'(https?://)?(www\.)?(github\.com/[a-zA-Z0-9_-]+)'] *)
Definition re_github_url : regex :=
  seq_of [re_http_prefix; re_www_prefix;
          Group 3 (Seq (str_lit (lit "github.com/")) (plus url_name_c))].
(** [r'github[:\s]*([a-zA-Z0-9_-]+)'] with re.IGNORECASE *)
Definition re_github_user : regex :=
  seq_of [str_ci (lit "github"); re_colon_ws; Group 1 (plus url_name_c)].

Definition extract_github (text : pystr) : option pystr :=
  match search text re_github_url 0 with
  | Some x =>
      let url := group0 text x in
      Some (if negb (py_startswith (lit "http") url) then lit "https://" ++ url else url)
  | None =>
      match search text re_github_user 0 with
      | Some x =>
          let username := match group text x 1 with Some u => u | None => [] end in
          Some (lit "https://github.com/" ++ username)
      | None => None
      end
  end.

(* ================================================================== *)
(* extract_phone  (resume_final.py, lines 601-630)                     *)
(* ================================================================== *)

(** [r'[\d\-\s\(\)]'] *)
Definition phone_mid_c (c : ascii) : bool :=
  is_digit c || c_any_of (lit "-()") c || is_space c.
(** [r'(\+?\d[\d\-\s\(\)]{9,}\d)'] *)
Definition re_phone : regex :=
  Group 1 (seq_of [Rep (c_is "+"%char) 0 (Some 1) true; Chr is_digit;
                   Rep phone_mid_c 9 None true; Chr is_digit]).
(** [r'\D'] *)
Definition re_non_digit : regex := Chr (fun c => negb (is_digit c)).

(** [re.findall] for a pattern with one group: group 1 of each match, the
    empty string when the group did not take part. *)
Definition findall1 (text : pystr) (r : regex) : list pystr :=
  map (fun x => match group text x 1 with Some u => u | None => [] end) (finditer text r).

Section PhoneNumbers.
(** The [phonenumbers] library: [parse s region] is None when it raises
    NumberParseException ([region] None is the Python None). *)
Variable phone_number : Type.
Variable parse : pystr -> option pystr -> option phone_number.
Variable is_valid_number : phone_number -> bool.
Variable format_international : phone_number -> pystr.

(** One [try: pn = parse(...); if is_valid_number(pn): return format_number(...)
    except NumberParseException: pass] block; None when it falls through. *)
Definition try_phone (s : pystr) (region : option pystr) : option pystr :=
  match parse s region with
  | Some pn => if is_valid_number pn then Some (format_international pn) else None
  | None => None
  end.

Fixpoint phone_candidates (cands : list pystr) : option pystr :=
  match cands with
  | [] => None
  | raw :: rest =>
      let cleaned := py_strip raw in
      let digits := sub cleaned re_non_digit [] in
      if (List.length digits <? 10) || (15 <? List.length digits) then phone_candidates rest
      else
        let first :=
          if (List.length digits =? 10) &&
             match digits with d0 :: _ => c_any_of (lit "6789") d0 | [] => false end
          then try_phone digits (Some (lit "IN")) else None in
        match first with
        | Some r => Some r
        | None =>
            match try_phone cleaned (Some (lit "IN")) with
            | Some r => Some r
            | None =>
                match try_phone cleaned None with
                | Some r => Some r
                | None => phone_candidates rest
                end
            end
        end
  end.

Definition extract_phone (text : pystr) : option pystr :=
  phone_candidates (findall1 text re_phone).

End PhoneNumbers.

(* ================================================================== *)
(* str.splitlines and the page-text assembly of                        *)
(* extract_text_with_pdfplumber / extract_text_with_pymupdf            *)
(* (resume_final.py, lines 86-93 and 127-132)                          *)
(* ================================================================== *)

(** The line boundaries of [str.splitlines] in U+0000..U+00FF:
    \n \v \f \r \x1c \x1d \x1e \x85. *)
Definition is_line_boundary (c : ascii) : bool :=
  let n := code c in in_range 10 13 n || in_range 28 30 n || (n =? 133).

(** [str.splitlines()]: "\r\n" is one boundary; no empty piece after a
    final boundary. *)
Fixpoint splitlines_acc (cur : pystr) (s : pystr) : list pystr :=
  match s with
  | [] => match cur with [] => [] | _ => [rev cur] end
  | c :: s' =>
      if is_line_boundary c then
        if ascii_eqb c CR then
          match s' with
          | d :: s'' =>
              if ascii_eqb d NL then rev cur :: splitlines_acc [] s''
              else rev cur :: splitlines_acc [] s'
          | [] => rev cur :: splitlines_acc [] s'
          end
        else rev cur :: splitlines_acc [] s'
      else splitlines_acc (c :: cur) s'
  end.
Definition py_splitlines (s : pystr) : list pystr := splitlines_acc [] s.

(** [bool(l.strip())] *)
Definition nonblank (l : pystr) : bool :=
  match py_strip l with [] => false | _ => true end.

(** [joined = []; for ptxt in pages_text: joined.extend(ptxt.splitlines());
    joined = _dehyphenate_lines(joined);
    return "\n".join(l for l in joined if l.strip())] *)
Definition join_page_texts (pages_text : list pystr) : pystr :=
  let joined := flat_map py_splitlines pages_text in
  let joined := _dehyphenate_lines joined in
  py_join [NL] (filter nonblank joined).

(* ================================================================== *)
(* naive_split_sections_from_text  (resume_final.py, lines 988-1010)   *)
(* ================================================================== *)

(** [for sec, pat in SECTION_PATTERNS.items(): if re.search(pat, ln,
    re.IGNORECASE): matched = sec; break] *)
Definition first_section (pats : list (pystr * regex)) (ln : pystr) : option pystr :=
  match find (fun kp => re_search_b (snd kp) ln) pats with
  | Some (sec, _) => Some sec
  | None => None
  end.

(** One line: a header line switches the bucket, another line is appended
    to the current one.  State: (current, buckets). *)
Definition naive_step (st : pystr * sections_dict) (ln : pystr) : pystr * sections_dict :=
  let '(current, d) := st in
  match first_section SECTION_PATTERNS ln with
  | Some sec => (sec, d)
  | None => (current, dict_append current ln d)
  end.

(** [[l.strip() for l in text.splitlines() if l.strip()]] *)
Definition naive_lines (text : pystr) : list pystr :=
  map py_strip (filter nonblank (py_splitlines text)).

(** The except branch is not modelled: splitlines, strip, re.search,
    the bucket appends (the current key is always present, see
    [naive_split_sections_props]) and join raise nothing here. *)
Definition naive_split_sections_from_text (text : pystr) : list (pystr * pystr) :=
  map (fun kv => (fst kv, py_join [NL] (snd kv)))
      (snd (fold_left naive_step (naive_lines text) (lit "others", initial_sections))).


Definition no_header (ln : pystr) : bool :=
  match first_section SECTION_PATTERNS ln with None => true | Some _ => false end.

(* ================================================================== *)
(* clean_skill_lines / extract_flat_skills  (resume_final.py, 842-856) *)
(* ================================================================== *)

(** [r'[|•]'] (U+2022 lies outside U+0000..U+00FF) *)
Definition re_pipe : regex := Chr (c_any_of (lit "|")).
(** The characters [r'[^\w\s,#+.&/-]'] leaves alone. *)
Definition skill_keep_c (c : ascii) : bool :=
  is_word c || is_space c || c_any_of (lit ",#+.&/-") c.
Definition re_skill_junk : regex := Chr (fun c => negb (skill_keep_c c)).
(** [r'[\s/&]+'] *)
Definition skill_sep_c (c : ascii) : bool := is_space c || c_any_of (lit "/&") c.
Definition re_skill_sep : regex := plus skill_sep_c.

Definition clean_skill_line (line : pystr) : list pystr :=
  let line := sub line re_pipe (lit ",") in
  let line := sub line re_skill_junk [] in
  let line := py_strip (sub line (plus is_space) [SP]) in
  match line with
  | [] => []
  | _ => map py_strip (filter nonblank (re_split line re_skill_sep))
  end.

Definition clean_skill_lines (lines : list pystr) : list pystr :=
  flat_map clean_skill_line lines.





(* ================================================================== *)
(* parse_resume_pdf  (resume_final.py, lines 942-985)                  *)
(* ================================================================== *)

(** One line: a bold or large line (max span size above 11) may switch the
    section; every non-blank line, the header included, is appended to the
    current section. *)
Definition pr_line_step (st : pystr * sections_dict) (l : line) : pystr * sections_dict :=
  let '(current, d) := st in
  let txt := py_strip (line_text_raw l) in
  match txt with
  | [] => st
  | _ =>
      let current' :=
        if line_is_bold l || Qgt_b (line_font_size l) 11%Q
        then header_scan SECTION_PATTERNS (py_lower txt) true current
        else current in
      (current', dict_append current' txt d)
  end.

(** Blocks without "lines" are skipped; pages and blocks in document order. *)
Definition pr_block_step (st : pystr * sections_dict) (b : block) : pystr * sections_dict :=
  match block_lines b with
  | Some ls => fold_left pr_line_step ls st
  | None => st
  end.
Definition pr_page_step (st : pystr * sections_dict) (p : page) : pystr * sections_dict :=
  fold_left pr_block_step (page_blocks p) st.

Definition parse_resume_buckets (doc : document) : sections_dict :=
  snd (fold_left pr_page_step doc (lit "others", initial_sections)).

(** A value of the result: a joined string, or the skill list. *)
Inductive section_value := SText (s : pystr) | SSkills (l : list pystr).

(** [[re.sub(r'\s+', ' ', line).strip() for line in lines if line.strip()]] *)
Definition pr_clean_lines (ls : list pystr) : list pystr :=
  map (fun l => py_strip (sub l (plus is_space) [SP])) (filter nonblank ls).

Definition parse_resume_pdf (stop_words_set : list pystr) (doc : document)
  : list (pystr * section_value) :=
  map (fun kv =>
         let cleaned := pr_clean_lines (snd kv) in
         if str_eqb (fst kv) (lit "skills")
         then (fst kv, SSkills (extract_skills stop_words_set (py_join [NL] cleaned)))
         else (fst kv, SText (py_join [NL] cleaned)))
      (parse_resume_buckets doc).

(** The stripped non-blank line texts of a document, in document order. *)
Definition doc_lines (doc : document) : list pystr :=
  flat_map (fun p =>
    flat_map (fun b =>
      filter (fun t => match t with [] => false | _ => true end)
             (map (fun l => py_strip (line_text_raw l))
                  (match block_lines b with Some ls => ls | None => [] end)))
      (page_blocks p)) doc.


Definition pr_inv (st : pystr * sections_dict) : Prop :=
  In (fst st) SECTION_TAGS /\ map fst (snd st) = SECTION_TAGS.

(* ================================================================== *)
(* Theorems                                                            *)
(* ================================================================== *)

(* ---------------- examples ---------------- *)

Example re_ex1 : sub (lit "a  b   c") (Rep is_space 2 None true) (lit " ") = lit "a b c".
Proof. reflexivity. Qed.
Example re_ex2 : re_split (lit "a,b;;c") (Chr (c_any_of (lit ",;"))) = [lit "a"; lit "b"; []; lit "c"].
Proof. reflexivity. Qed.

Example norm_ex1 :
  _normalize_text_block (lit "a " ++ [TAB; NL; NL; NL] ++ lit "b  c " ++ [NBSP])
  = lit "a" ++ [NL] ++ lit "b c".
Proof. reflexivity. Qed.
Example norm_ex2 :
  _normalize_text_block (lit "x" ++ [NL] ++ lit "Page 1 of 2" ++ [NL] ++ lit "y")
  = lit "x" ++ [NL; NL] ++ lit "y".
Proof. reflexivity. Qed.

Example seg_ex1 :
  let doc := [mk_page 600%Q [mk_block 0%Q 0%Q (Some [[mk_span (lit "Experience") (lit "Arial-Bold") 12%Q];
                                               [mk_span (lit "Worked at X") (lit "Arial") 10%Q]])]] in
  dict_get (extract_sections_with_pymupdf doc) (lit "experience")
  = Some (lit "Experience" ++ [NL] ++ lit "Worked at X").
Proof. vm_compute. reflexivity. Qed.

Example exp_ex1 :
  calculate_total_experience today
    (lit "Jan 2019 to Jun 2020" ++ [NL] ++ lit "Mar 2020 to Dec 2021")
  = lit "2 years and 11 months".
Proof. vm_compute. reflexivity. Qed.
Example exp_ex2 :
  calculate_total_experience today (lit "Analyst, Sept 2020 - Present")
  = lit "6 years and 1 months".
Proof. vm_compute. reflexivity. Qed.
Example exp_ex3 :
  calculate_total_experience today (lit "2030 - 2031") = lit "-4 years and 10 months".
Proof. vm_compute. reflexivity. Qed.

Example skills_ex1 :
  extract_skills [] (lit "Python, python, PYTHON; Docker | John Smith; node.js (runtime)")
  = [lit "PYTHON"; lit "DOCKER"; lit "NODE.JS"].
Proof. vm_compute. reflexivity. Qed.
Example skills_ex2 :
  extract_skills [] (lit "Machine Learning: Data Visualization, power bi, Tested")
  = [lit "POWER BI"].
Proof. vm_compute. reflexivity. Qed.

(* ---------------- str helpers ---------------- *)

Lemma lstrip_by_all (p : ascii -> bool) (s : pystr) :
  forallb p s = true -> lstrip_by p s = [].
Proof.
  induction s as [|c s IH]; simpl; [reflexivity|].
  intros H. apply andb_prop in H as [Hc Hs]. rewrite Hc. now apply IH.
Qed.

Lemma forallb_rev {A : Type} (p : A -> bool) (l : list A) :
  forallb p (rev l) = forallb p l.
Proof.
  induction l as [|x l IH]; simpl; [reflexivity|].
  rewrite forallb_app, IH; simpl. now rewrite andb_true_r, andb_comm.
Qed.

Lemma strip_by_all (p : ascii -> bool) (s : pystr) :
  forallb p s = true -> strip_by p s = [].
Proof.
  intros H. unfold strip_by, rstrip_by. now rewrite (lstrip_by_all p s H).
Qed.

Lemma rstrip_by_all (p : ascii -> bool) (s : pystr) :
  forallb p s = true -> rstrip_by p s = [].
Proof.
  intros H. unfold rstrip_by. rewrite lstrip_by_all; [reflexivity|].
  now rewrite forallb_rev.
Qed.

Lemma split_char_acc_all (p : ascii -> bool) (sep : ascii) (s cur : pystr) :
  forallb p cur = true -> forallb p s = true ->
  Forall (fun x => forallb p x = true) (split_char_acc sep cur s).
Proof.
  revert cur. induction s as [|c s IH]; intros cur Hcur Hs; simpl.
  - constructor; [now rewrite forallb_rev | constructor].
  - simpl in Hs. apply andb_prop in Hs as [Hc Hs].
    destruct (ascii_eqb c sep).
    + constructor; [now rewrite forallb_rev|]. apply IH; auto.
    + apply IH; auto. simpl. now rewrite Hc, Hcur.
Qed.

(* ---------------- C10 ---------------- *)

(** C10: for every input string that is empty or consists only of
    whitespace, [extract_name] returns the literal "Unknown", whatever its
    later strategies would do. *)
Theorem extract_name_blank_is_unknown (name_strategies : list pystr -> pystr) (text : pystr) :
  forallb is_space text = true -> extract_name name_strategies text = UNKNOWN.
Proof.
  intros Hws. unfold extract_name.
  assert (Hall := split_char_acc_all is_space NL text [] eq_refl Hws).
  unfold py_split_char.
  assert (Hnil : forall l, Forall (fun x => forallb is_space x = true) l ->
                 filter nonempty_str (map py_strip (map py_rstrip l)) = []).
  { induction 1 as [|x l Hx _ IH]; [reflexivity|].
    simpl. unfold py_rstrip at 1. rewrite (rstrip_by_all is_space x Hx). exact IH. }
  now rewrite (Hnil _ Hall).
Qed.

Lemma extract_name_blank_is_unknown_witness :
  forallb is_space (lit " " ++ [NL; TAB; NBSP] ++ lit "  ") = true
  /\ extract_name (fun _ => lit "John Smith") (lit " " ++ [NL; TAB; NBSP] ++ lit "  ") = UNKNOWN.
Proof.
  split; [vm_compute; reflexivity|].
  apply extract_name_blank_is_unknown. vm_compute. reflexivity.
Defined.

(* ---------------- C1 ---------------- *)

Section PipelineFacts.
Variable get_combined_texts : pystr -> outcome (pystr * pystr * pystr).
Variables extract_email extract_phone extract_linkedin extract_github : pystr -> outcome (option pystr).
Variable extract_name_step : pystr -> outcome pystr.
Variable extract_location : pystr -> outcome (option pystr).
Variable sections_original_step : pystr -> outcome (list (pystr * pystr)).
Variable sections_refined_step : pystr -> outcome (list (pystr * pystr)).
Variable extract_skills_step : pystr -> outcome (list pystr).
Variable calculate_total_experience_step : pystr -> outcome pystr.

(** C1 (as amended): whatever each step of the pipeline does, [process_resume]
    returns the assembled record when no step raises; when a step raises an
    exception of class [Exception] it returns the fallback record (name
    "Unknown", null contacts, no skills, "0 years and 0 months") whose
    error is [str(e)]; only an exception outside [Exception] (such as
    KeyboardInterrupt) escapes to the caller. *)
Theorem process_resume_failure_boundary (file_path : pystr) :
  let body := process_resume_body get_combined_texts extract_email extract_phone
                extract_linkedin extract_github extract_name_step extract_location
                sections_original_step sections_refined_step extract_skills_step
                calculate_total_experience_step file_path in
  let result := process_resume get_combined_texts extract_email extract_phone
                extract_linkedin extract_github extract_name_step extract_location
                sections_original_step sections_refined_step extract_skills_step
                calculate_total_experience_step file_path in
  match body with
  | Ok j => result = Ok j
  | Raised e =>
      result = (if exn_is_Exception e then Ok (fallback_record (exn_str e)) else Raised e)
  end
  /\ (forall e, result = Raised e -> exn_is_Exception e = false).
Proof.
  cbv zeta. unfold process_resume, try_except_Exception.
  destruct (process_resume_body _ _ _ _ _ _ _ _ _ _ _ file_path) as [j|e].
  - split; [reflexivity|]. intros e H. discriminate H.
  - destruct (exn_is_Exception e) eqn:He.
    + split; [reflexivity|]. intros e' H. discriminate H.
    + split; [reflexivity|]. intros e' H. injection H as <-. exact He.
Qed.
End PipelineFacts.

Lemma process_resume_failure_boundary_witness :
  process_resume_memory_error (lit "resume.pdf") = Ok (fallback_record []).
Proof.
  destruct (process_resume_failure_boundary (fun _ => Raised memory_error) (fun _ => Ok None)
              (fun _ => Ok None) (fun _ => Ok None) (fun _ => Ok None) (fun _ => Ok UNKNOWN)
              (fun _ => Ok None) (fun _ => Ok []) (fun _ => Ok []) (fun _ => Ok [])
              (fun _ => Ok zero_experience) (lit "resume.pdf")) as [H _].
  exact H.
Defined.

(** C1 fails as stated: the error string of the fallback record can be
    empty. *)
Lemma process_resume_error_can_be_empty :
  process_resume_memory_error (lit "resume.pdf") = Ok (fallback_record []) /\
  ~ (exists err, process_resume_memory_error (lit "resume.pdf") = Ok (fallback_record err)
                 /\ err <> []).
Proof.
  split; [vm_compute; reflexivity|].
  intros [err [H Hne]]. vm_compute in H. injection H as Herr. apply Hne. now subst.
Qed.

(* ---------------- C8 ---------------- *)

Lemma dict_append_keys (key x : pystr) (d : sections_dict) :
  map fst (dict_append key x d) = map fst d.
Proof.
  unfold dict_append. rewrite map_map. apply map_ext. intros [k v]; simpl.
  destruct (str_eqb k key); reflexivity.
Qed.

Lemma process_line_keys (st : pystr * sections_dict) (l : line) :
  map fst (snd (process_line st l)) = map fst (snd st).
Proof.
  destruct st as [cur d]. unfold process_line.
  cbv zeta. destruct (py_strip (line_text_raw l)) as [|c cs]; [reflexivity|].
  apply dict_append_keys.
Qed.

Lemma fold_left_keys {A : Type} (f : pystr * sections_dict -> A -> pystr * sections_dict)
      (Hf : forall st a, map fst (snd (f st a)) = map fst (snd st)) :
  forall (l : list A) st, map fst (snd (fold_left f l st)) = map fst (snd st).
Proof.
  induction l as [|a l IH]; intros st; simpl; [reflexivity|]. rewrite IH. apply Hf.
Qed.

Lemma process_block_keys (st : pystr * sections_dict) (b : block) :
  map fst (snd (process_block st b)) = map fst (snd st).
Proof. unfold process_block. apply fold_left_keys, process_line_keys. Qed.

Lemma process_page_keys (st : pystr * sections_dict) (p : page) :
  map fst (snd (process_page st p)) = map fst (snd st).
Proof.
  unfold process_page.
  rewrite (fold_left_keys _ process_block_keys), (fold_left_keys _ process_block_keys).
  reflexivity.
Qed.

Lemma parsed_sections_keys (doc : document) :
  map fst (parsed_sections doc) = SECTION_TAGS.
Proof.
  unfold parsed_sections. rewrite (fold_left_keys _ process_page_keys). vm_compute. reflexivity.
Qed.

(** C8 (as amended): for every document, the keys of the column-aware
    sectionizer's result are exactly the eight tags education, experience,
    skills, projects, certifications, summary, languages and others, in
    that order, and each tag is mapped to the whitespace-cleaned non-empty
    lines collected under it, joined by newlines. *)
Theorem extract_sections_with_pymupdf_keys (doc : document) :
  map fst (extract_sections_with_pymupdf doc) = SECTION_TAGS /\
  Forall2 (fun kv kl => fst kv = fst kl /\ snd kv = py_join [NL] (clean_section_lines (snd kl)))
          (extract_sections_with_pymupdf doc) (parsed_sections doc).
Proof.
  split.
  - unfold extract_sections_with_pymupdf. rewrite map_map. apply parsed_sections_keys.
  - unfold extract_sections_with_pymupdf. induction (parsed_sections doc) as [|kl l IH].
    + constructor.
    + constructor; [split; reflexivity | exact IH].
Qed.

(** C8 fails as stated: there is no "personal" key, even for a document
    without pages. *)
Lemma extract_sections_no_personal_key :
  map fst (extract_sections_with_pymupdf []) = SECTION_TAGS /\
  ~ In (lit "personal") (map fst (extract_sections_with_pymupdf [])).
Proof.
  split; [vm_compute; reflexivity|].
  vm_compute. intros H. repeat (destruct H as [H|H]; [discriminate H|]). exact H.
Qed.

(* ---------------- C7 ---------------- *)

Lemma ascii_eqb_eq (a b : ascii) : ascii_eqb a b = true <-> a = b.
Proof. unfold ascii_eqb. apply Ascii.eqb_eq. Qed.

Lemma str_eqb_eq (a b : pystr) : str_eqb a b = true <-> a = b.
Proof.
  revert b. induction a as [|x a IH]; intros [|y b]; simpl; try (split; congruence).
  rewrite andb_true_iff, ascii_eqb_eq, IH. split; [intros [-> ->]; reflexivity|].
  intros H; injection H as -> ->; split; reflexivity.
Qed.

Lemma str_mem_In (x : pystr) (l : list pystr) : str_mem x l = true <-> In x l.
Proof.
  unfold str_mem. rewrite existsb_exists. split.
  - intros [y [Hy He]]. apply str_eqb_eq in He. now subst.
  - intros H. exists x. split; [exact H|]. now apply str_eqb_eq.
Qed.

Lemma dedup_lower_props (seen cands : list pystr) :
  let r := dedup_lower seen cands in
  NoDup (map py_lower r) /\
  (forall c, In c r -> ~ In (py_lower c) seen) /\
  subseq r cands /\
  (forall c, In c cands -> In (py_lower c) seen \/ In (py_lower c) (map py_lower r)) /\
  (forall c, In c r -> exists pre post, cands = pre ++ c :: post /\
                        ~ In (py_lower c) (seen ++ map py_lower pre)).
Proof.
  revert seen. induction cands as [|c rest IH]; intros seen; simpl.
  - split; [constructor|]. split; [intros _ []|]. split; [constructor|].
    split; [intros _ []| intros _ []].
  - destruct (str_mem (py_lower c) seen) eqn:Hmem.
    + apply str_mem_In in Hmem.
      destruct (IH seen) as (Hnd & Hnew & Hsub & Hcov & Hfirst).
      split; [exact Hnd|]. split; [exact Hnew|]. split; [now constructor|].
      split.
      * intros c' [<-|Hc']; [now left | now apply Hcov].
      * intros c' Hc'. destruct (Hfirst c' Hc') as (pre & post & Heq & Hnot).
        exists (c :: pre), post. split; [now rewrite Heq|].
        intros Hin. apply Hnot. simpl in Hin. apply in_app_or in Hin as [Hin|[Heqk|Hin]].
        -- now apply in_or_app; left.
        -- exfalso. apply (Hnew c'); [exact Hc'|]. rewrite <- Heqk. exact Hmem.
        -- now apply in_or_app; right.
      (* the lower-cased keys of [pre] are all in [seen] already *)
    + assert (Hmem' : ~ In (py_lower c) seen) by (rewrite <- str_mem_In; congruence).
      destruct (IH (py_lower c :: seen)) as (Hnd & Hnew & Hsub & Hcov & Hfirst).
      split.
      * simpl. constructor; [|exact Hnd].
        intros Hin. apply in_map_iff in Hin as [c' [Hk Hc']].
        apply (Hnew c' Hc'). rewrite Hk. now left.
      * split.
        { intros c' [<-|Hc']; [exact Hmem'|]. intros Hin. apply (Hnew c' Hc'). now right. }
        split; [now constructor|]. split.
        { intros c' [<-|Hc'].
          - right. now left.
          - destruct (Hcov c' Hc') as [[Hk|Hk]|Hk].
            + right. rewrite <- Hk. now left.
            + now left.
            + right. now right. }
        intros c' [<-|Hc'].
        { exists [], rest. split; [reflexivity|]. now rewrite app_nil_r. }
        destruct (Hfirst c' Hc') as (pre & post & Heq & Hnot).
        exists (c :: pre), post. split; [now rewrite Heq|].
        intros Hin. apply Hnot. simpl. apply in_app_or in Hin as [Hin|[Hk|Hin]].
        -- right. now apply in_or_app; left.
        -- now left.
        -- right. now apply in_or_app; right.
Qed.

(** C7: for every text (and every stop-word set), the output of
    [extract_skills] has pairwise distinct lower-cased keys, keeps the
    candidates in their order, covers the key of every candidate, and each
    output element is the first candidate with its key; in particular
    "Python, python, PYTHON" gives the single element "PYTHON" when
    "python" is not a stop word. *)
Theorem extract_skills_dedup (stop_words_set : list pystr) (text : pystr) :
  let cands := skill_candidates stop_words_set text in
  let r := extract_skills stop_words_set text in
  (NoDup (map py_lower r) /\
   subseq r cands /\
   (forall c, In c cands -> In (py_lower c) (map py_lower r)) /\
   (forall c, In c r -> exists pre post, cands = pre ++ c :: post /\
                         ~ In (py_lower c) (map py_lower pre))) /\
  (stop_mem (lit "python") stop_words_set = false ->
   extract_skills stop_words_set (lit "Python, python, PYTHON") = [lit "PYTHON"]).
Proof.
  split.
  - cbv zeta. unfold extract_skills.
    destruct (dedup_lower_props [] (skill_candidates stop_words_set text))
      as (Hnd & _ & Hsub & Hcov & Hfirst).
    split; [exact Hnd|]. split; [exact Hsub|]. split.
    + intros c Hc. destruct (Hcov c Hc) as [[]|H]. exact H.
    + exact Hfirst.
  - intros Hsw. unfold extract_skills, skill_candidates.
    cbv -[stop_mem] in Hsw |- *. rewrite !Hsw. vm_compute. reflexivity.
Qed.

Lemma extract_skills_dedup_witness :
  extract_skills [lit "the"; lit "and"] (lit "Python, python, PYTHON") = [lit "PYTHON"].
Proof.
  destruct (extract_skills_dedup [lit "the"; lit "and"] []) as [_ H].
  apply H. vm_compute. reflexivity.
Defined.

(* ---------------- datetime order ---------------- *)

Lemma lex_ltb_irrefl (a : list Z) : lex_ltb a a = false.
Proof. induction a as [|x a IH]; simpl; [reflexivity|]. now rewrite Z.ltb_irrefl, Z.eqb_refl, IH. Qed.

Lemma lex_ltb_trans (a b c : list Z) :
  lex_ltb a b = true -> lex_ltb b c = true -> lex_ltb a c = true.
Proof.
  revert b c. induction a as [|x a IH]; intros [|y b] [|z c]; simpl; try discriminate.
  intros H1 H2.
  apply orb_true_iff in H1 as [H1|H1]; apply orb_true_iff in H2 as [H2|H2];
    apply orb_true_iff; rewrite ?andb_true_iff, ?Z.ltb_lt, ?Z.eqb_eq in *.
  - left; lia.
  - destruct H2 as [-> _]. now left.
  - destruct H1 as [-> _]. now left.
  - destruct H1 as [-> H1], H2 as [-> H2]. right. split; [reflexivity|]. eapply IH; eauto.
Qed.

Lemma lex_ltb_total (a b : list Z) :
  List.length a = List.length b -> lex_ltb a b = false -> lex_ltb b a = false -> a = b.
Proof.
  revert b. induction a as [|x a IH]; intros [|y b]; simpl; try discriminate; [reflexivity|].
  intros Hl H1 H2. apply orb_false_iff in H1 as [H1 H1'], H2 as [H2 H2'].
  rewrite Z.ltb_ge in H1, H2. assert (x = y) by lia. subst y.
  rewrite Z.eqb_refl in H1', H2'. simpl in H1', H2'. f_equal. apply IH; auto.
Qed.

Lemma dt_fields_inj (a b : datetime) : dt_fields a = dt_fields b -> a = b.
Proof. destruct a, b; simpl; intros H; injection H; intros; subst; reflexivity. Qed.

Lemma dt_lt_irrefl (a : datetime) : dt_lt a a = false.
Proof. apply lex_ltb_irrefl. Qed.

Lemma dt_lt_trans (a b c : datetime) : dt_lt a b = true -> dt_lt b c = true -> dt_lt a c = true.
Proof. apply lex_ltb_trans. Qed.

Lemma dt_trichotomy (a b : datetime) : dt_lt a b = true \/ a = b \/ dt_lt b a = true.
Proof.
  destruct (dt_lt a b) eqn:H1; [now left|]. destruct (dt_lt b a) eqn:H2; [now right; right|].
  right; left. apply dt_fields_inj, lex_ltb_total; auto.
Qed.

Lemma dt_le_refl (a : datetime) : dt_le a a = true.
Proof. unfold dt_le. now rewrite dt_lt_irrefl. Qed.

Lemma dt_lt_le (a b : datetime) : dt_lt a b = true -> dt_le a b = true.
Proof.
  unfold dt_le. intros H. destruct (dt_lt b a) eqn:H'; [|reflexivity].
  pose proof (dt_lt_trans _ _ _ H H') as Hc. now rewrite dt_lt_irrefl in Hc.
Qed.

Lemma dt_le_false (a b : datetime) : dt_le a b = false -> dt_lt b a = true.
Proof. unfold dt_le. now destruct (dt_lt b a). Qed.

Lemma dt_le_trans (a b c : datetime) : dt_le a b = true -> dt_le b c = true -> dt_le a c = true.
Proof.
  intros H1 H2. destruct (dt_le a c) eqn:H; [reflexivity|].
  apply dt_le_false in H. unfold dt_le in H1, H2.
  destruct (dt_trichotomy a b) as [Hab|[<-|Hba]].
  - rewrite (dt_lt_trans _ _ _ H Hab) in H2. discriminate.
  - rewrite H in H2. discriminate.
  - rewrite Hba in H1. discriminate.
Qed.

Lemma dt_le_total (a b : datetime) : dt_le a b = true \/ dt_le b a = true.
Proof.
  destruct (dt_le a b) eqn:H; [now left|]. right. apply dt_lt_le, dt_le_false, H.
Qed.

Lemma dt_lt_le_trans (a b c : datetime) : dt_lt a b = true -> dt_le b c = true -> dt_lt a c = true.
Proof.
  intros H1 H2. destruct (dt_trichotomy a c) as [H|[<-|H]]; [exact H| |].
  - unfold dt_le in H2. now rewrite H1 in H2.
  - unfold dt_le in H2. now rewrite (dt_lt_trans _ _ _ H H1) in H2.
Qed.

(* ---------------- C4 ---------------- *)

Lemma collect_intervals_ok (cands : list (option datetime * option datetime)) :
  Forall interval_ok (collect_intervals cands).
Proof.
  induction cands as [|[[s|] [e|]] rest IH]; simpl; try exact IH; [constructor|].
  destruct (dt_le s e) eqn:Hle; [|exact IH].
  destruct (yr s <? 1980)%Z eqn:H1; [exact IH|].
  destruct (20 <? yr e - yr s)%Z eqn:H2; [exact IH|].
  constructor; [|exact IH]. apply Z.ltb_ge in H1, H2. repeat split; simpl; auto.
Qed.

Lemma collect_intervals_app (l1 l2 : list (option datetime * option datetime)) :
  collect_intervals (l1 ++ l2) = collect_intervals l1 ++ collect_intervals l2.
Proof.
  induction l1 as [|[[s|] [e|]] l1 IH]; simpl; try exact IH; [reflexivity|].
  destruct (dt_le s e); [|exact IH].
  destruct (yr s <? 1980)%Z; [exact IH|]. destruct (20 <? yr e - yr s)%Z; [exact IH|].
  now rewrite IH.
Qed.

(** C4: every interval kept by the loop of [calculate_total_experience]
    satisfies end >= start, start year >= 1980 and a year span of at most
    20; a parsed pair breaking one of these is dropped, whatever surrounds
    it, so it changes nothing downstream; the texts "1975 - 1976" and
    "1990 - 2015" give "0 years and 0 months" at any current date. *)
Theorem collect_intervals_discard :
  (forall now text, Forall interval_ok (collect_intervals (candidate_intervals now text))) /\
  (forall l1 l2 s e,
     dt_le s e = false \/ (yr s < 1980)%Z \/ (20 < yr e - yr s)%Z ->
     collect_intervals (l1 ++ (Some s, Some e) :: l2) = collect_intervals (l1 ++ l2)) /\
  (forall now, calculate_total_experience now (lit "1975 - 1976") = zero_experience /\
               calculate_total_experience now (lit "1990 - 2015") = zero_experience).
Proof.
  split; [intros; apply collect_intervals_ok|]. split.
  - intros l1 l2 s e Hbad. rewrite !collect_intervals_app. f_equal. simpl.
    destruct (dt_le s e) eqn:Hle; [|reflexivity].
    destruct (yr s <? 1980)%Z eqn:H1; [reflexivity|].
    destruct (20 <? yr e - yr s)%Z eqn:H2; [reflexivity|].
    apply Z.ltb_ge in H1, H2. exfalso. destruct Hbad as [H|[H|H]]; [congruence|lia|lia].
  - intros now. split; vm_compute; reflexivity.
Qed.

Lemma collect_intervals_discard_witness :
  collect_intervals ([] ++ (Some (first_of 1990 1), Some (first_of 2015 1)) :: [])
  = collect_intervals ([] ++ []).
Proof.
  destruct collect_intervals_discard as [_ [H _]]. apply H. right. right. vm_compute. reflexivity.
Defined.

(* ---------------- sorting and merging ---------------- *)

Lemma insert_by_start_In (iv : interval) (l : list interval) (x : interval) :
  In x (insert_by_start iv l) <-> x = iv \/ In x l.
Proof.
  induction l as [|iv' l IH]; simpl; [split; intros [H|H]; auto; contradiction|].
  destruct (dt_le (fst iv') (fst iv)); simpl.
  - rewrite IH. split; intros [H|[H|H]]; auto.
  - split; intros [H|[H|H]]; auto.
Qed.

Lemma insert_by_start_sorted (iv : interval) (l : list interval) :
  Sorted start_le l -> Sorted start_le (insert_by_start iv l).
Proof.
  induction l as [|iv' l IH]; simpl; intros H.
  - constructor; constructor.
  - destruct (dt_le (fst iv') (fst iv)) eqn:E.
    + apply Sorted_inv in H as [Hl Hhd]. constructor; [now apply IH|].
      destruct l as [|iv'' l]; simpl; [now constructor|].
      destruct (dt_le (fst iv'') (fst iv)); constructor; [now inversion Hhd | exact E].
    + constructor; [exact H|]. constructor. unfold start_le. apply dt_lt_le, dt_le_false, E.
Qed.

Lemma sort_by_start_props (l : list interval) :
  Sorted start_le (sort_by_start l) /\ (forall x, In x (sort_by_start l) <-> In x l).
Proof.
  unfold sort_by_start.
  assert (G : forall acc, Sorted start_le acc ->
            Sorted start_le (fold_left (fun acc iv => insert_by_start iv acc) l acc) /\
            (forall x, In x (fold_left (fun acc iv => insert_by_start iv acc) l acc)
                       <-> In x acc \/ In x l)).
  { induction l as [|iv l IH]; intros acc Hacc; simpl.
    - split; [exact Hacc|]. tauto.
    - destruct (IH (insert_by_start iv acc) (insert_by_start_sorted iv acc Hacc)) as [Hs Hin].
      split; [exact Hs|]. intros x. rewrite Hin, insert_by_start_In. simpl. split; intros H; repeat destruct H as [H|H]; subst; auto. }
  destruct (G [] (Sorted_nil _)) as [Hs Hin]. split; [exact Hs|]. intros x. rewrite Hin. simpl. tauto.
Qed.

Lemma sweep_merge_head (cur : interval) (l : list interval) :
  exists e rest, sweep_merge cur l = (fst cur, e) :: rest.
Proof.
  revert cur. induction l as [|[s e] l IH]; intros cur; simpl.
  - exists (snd cur), []. now destruct cur.
  - destruct (dt_le s (snd cur)).
    + destruct (IH (fst cur, if dt_lt (snd cur) e then e else snd cur)) as (e' & rest & H).
      exists e', rest. exact H.
    + exists (snd cur), (sweep_merge (s, e) l). now destruct cur.
Qed.






Lemma start_le_trans : Relations_1.Transitive start_le.
Proof. intros x y z. unfold start_le. apply dt_le_trans. Qed.

(* ---------------- relativedelta on month starts ---------------- *)






(* ---------------- C5 ---------------- *)





(* ---------------- C6 ---------------- *)

Lemma merge_intervals_earliest (ivs : list interval) :
  ivs <> [] ->
  exists first rest, merge_intervals ivs = first :: rest /\ In (fst first) (map fst ivs) /\
                     forall iv, In iv ivs -> dt_le (fst first) (fst iv) = true.
Proof.
  intros Hne. destruct (sort_by_start_props ivs) as [Hsorted Hin].
  unfold merge_intervals. destruct (sort_by_start ivs) as [|f rest] eqn:Hs.
  - destruct ivs as [|iv ivs]; [contradiction|]. exfalso. apply (proj2 (Hin iv)). now left.
  - destruct (sweep_merge_head f rest) as (e & rest' & Hh). rewrite Hh.
    exists (fst f, e), rest'. split; [reflexivity|]. split.
    + apply in_map_iff. exists f. split; [reflexivity|]. apply Hin. now left.
    + apply (Sorted_StronglySorted start_le_trans) in Hsorted.
      apply StronglySorted_inv in Hsorted as [_ Hhd]. rewrite Forall_forall in Hhd.
      intros iv Hiv. apply Hin in Hiv. destruct Hiv as [<-|Hiv]; [apply dt_le_refl|].
      exact (Hhd iv Hiv).
Qed.

(** C6: when no interval survives the result is "0 years and 0 months";
    otherwise the merged intervals start with the earliest surviving start
    [s0], and the output is the formatting of
    min(min(sum of merged months, months from s0 to now), 600), a value
    bounded by 600, by the elapsed months from s0 to now and by the raw sum. *)
Theorem calculate_total_experience_capped (now : datetime) (text : pystr) :
  let ivs := collect_intervals (candidate_intervals now text) in
  let merged := merge_intervals ivs in
  (ivs = [] -> calculate_total_experience now text = zero_experience) /\
  (ivs <> [] ->
   exists s0 e0 rest,
     merged = (s0, e0) :: rest /\ In s0 (map fst ivs) /\
     (forall iv, In iv ivs -> dt_le s0 (fst iv) = true) /\
     let total := Z.min (Z.min (sum_months merged) (relativedelta_months now s0)) 600 in
     calculate_total_experience now text = format_experience total /\
     (total <= 600)%Z /\ (total <= relativedelta_months now s0)%Z /\ (total <= sum_months merged)%Z).
Proof.
  cbv zeta. split.
  - intros H. unfold calculate_total_experience. rewrite H. reflexivity.
  - intros Hne.
    destruct (merge_intervals_earliest _ Hne) as ([s0 e0] & rest & Hm & Hin & Hmin).
    exists s0, e0, rest. split; [exact Hm|]. split; [exact Hin|]. split; [exact Hmin|].
    split; [|lia].
    unfold calculate_total_experience, total_from_intervals.
    destruct (collect_intervals (candidate_intervals now text)) as [|iv ivs'];
      [contradiction|].
    unfold capped_total_months. rewrite Hm. reflexivity.
Qed.

Lemma calculate_total_experience_capped_witness :
  collect_intervals (candidate_intervals today (lit "Jan 2019 to Jun 2020")) <> [] /\
  calculate_total_experience today (lit "Jan 2019 to Jun 2020") = lit "1 years and 5 months".
Proof.
  assert (Hne : collect_intervals (candidate_intervals today (lit "Jan 2019 to Jun 2020")) <> [])
    by (vm_compute; discriminate).
  split; [exact Hne|].
  destruct (calculate_total_experience_capped today (lit "Jan 2019 to Jun 2020")) as [_ H].
  destruct (H Hne) as (s0 & e0 & rest & Hm & _ & _ & Hout & _).
  vm_compute in Hm. injection Hm as Hs0 He0 Hrest. subst s0 e0 rest.
  rewrite Hout. vm_compute. reflexivity.
Defined.

(* ---------------- C2 ---------------- *)

(** C2 (as the code behaves): every non-empty line, a header line
    included, is appended to the section that is current after the line
    is read; so a bold "Experience" header ends up as the first line of the
    experience section. *)
Theorem process_line_appends_header_line (cur : pystr) (d : sections_dict) (l : line) :
  py_strip (line_text_raw l) <> [] ->
  snd (process_line (cur, d) l)
  = dict_append (fst (process_line (cur, d) l)) (py_strip (line_text_raw l)) d /\
  dict_get (extract_sections_with_pymupdf header_doc) (lit "experience")
  = Some (lit "Experience" ++ [NL] ++ lit "Worked at X").
Proof.
  intros Hne. split.
  - unfold process_line. cbv zeta.
    destruct (py_strip (line_text_raw l)) as [|c cs]; [contradiction|]. reflexivity.
  - vm_compute. reflexivity.
Qed.

Lemma process_line_appends_header_line_witness :
  snd (process_line (lit "others", initial_sections) [mk_span (lit "Skills") (lit "Arial-Bold") 12%Q])
  = dict_append (lit "skills") (lit "Skills") initial_sections.
Proof.
  destruct (process_line_appends_header_line (lit "others") initial_sections
              [mk_span (lit "Skills") (lit "Arial-Bold") 12%Q]) as [H _].
  - vm_compute. discriminate.
  - rewrite H. vm_compute. reflexivity.
Defined.

(* ---------------- C9 ---------------- *)

(** C9 (as the code behaves): a range that starts after the current date
    makes the elapsed-months cap negative, and the output has a negative
    year count: on 2026-10-17, "2030 - 2031" gives "-4 years and 10 months". *)
Theorem calculate_total_experience_future_range :
  calculate_total_experience today (lit "2030 - 2031") = lit "-4 years and 10 months".
Proof. vm_compute. reflexivity. Qed.

(* ---------------- normalizer: matcher facts ---------------- *)

Lemma first_some_Some {A B : Type} (f : A -> option B) (l : list A) (x : B) :
  first_some f l = Some x -> exists a, In a l /\ f a = Some x.
Proof.
  induction l as [|a l IH]; simpl; [discriminate|].
  destruct (f a) eqn:E.
  - intros H. injection H as <-. exists a. split; [now left|exact E].
  - intros H. destruct (IH H) as [a' [Ha' Hf]]. exists a'. split; [now right|exact Hf].
Qed.

Lemma m_cont {A : Type} (t : pystr) (r : regex) :
  forall i c (k : nat -> caps -> option A) x,
  m t r i c k = Some x -> exists j c', k j c' = Some x.
Proof.
  induction r as [|p|r1 IH1 r2 IH2|r1 IH1 r2 IH2|p lo hi g|g r IH| ml | ml |];
    intros i c k x H; simpl in H.
  - eauto.
  - destruct (char_at_is t p i); [eauto|discriminate].
  - destruct (IH1 _ _ _ _ H) as [j [c' H']]. exact (IH2 _ _ _ _ H').
  - destruct (m t r1 i c k) eqn:E.
    + injection H as <-. exact (IH1 _ _ _ _ E).
    + exact (IH2 _ _ _ _ H).
  - apply first_some_Some in H as [n [_ H]]. eauto.
  - destruct (IH _ _ _ _ H) as [j [c' H']]. eauto.
  - destruct (at_bol t ml i); [eauto|discriminate].
  - destruct (at_eol t ml i); [eauto|discriminate].
  - destruct (at_word_boundary t i); [eauto|discriminate].
Qed.

Lemma match_at_start (t : pystr) (r : regex) (i i' j : nat) (c : caps) :
  match_at t r i = Some (i', j, c) -> i' = i.
Proof.
  unfold match_at. intros H. apply m_cont in H as [j' [c' H]]. congruence.
Qed.

Lemma search_from_Some (t : pystr) (r : regex) :
  forall fuel pos x, search_from t r pos fuel = Some x ->
  exists i, pos <= i /\ i < pos + fuel /\ match_at t r i = Some x /\
            forall k, pos <= k < i -> match_at t r k = None.
Proof.
  induction fuel as [|f IH]; intros pos x H; simpl in H; [discriminate|].
  destruct (match_at t r pos) eqn:E.
  - injection H as <-. exists pos. split; [lia|]. split; [lia|]. split; [exact E|].
    intros k Hk. lia.
  - destruct (IH (S pos) x H) as [i [H1 [H2 [H3 H4]]]].
    exists i. split; [lia|]. split; [lia|]. split; [exact H3|].
    intros k Hk. destruct (Nat.eq_dec k pos) as [->|Hne]; [exact E|]. apply H4. lia.
Qed.

Lemma search_from_None (t : pystr) (r : regex) :
  forall fuel pos, search_from t r pos fuel = None ->
  forall k, pos <= k < pos + fuel -> match_at t r k = None.
Proof.
  induction fuel as [|f IH]; intros pos H k Hk; simpl in H; [lia|].
  destruct (match_at t r pos) eqn:E; [discriminate|].
  destruct (Nat.eq_dec k pos) as [->|Hne]; [exact E|]. apply (IH (S pos) H). lia.
Qed.



(** run_len *)
Lemma run_len_spec (t : pystr) (p : ascii -> bool) :
  forall fuel i, (forall k, k < run_len t p i fuel -> char_at_is t p (i + k) = true) /\
  (run_len t p i fuel < fuel -> char_at_is t p (i + run_len t p i fuel) = false).
Proof.
  induction fuel as [|f IH]; intros i; simpl.
  - split; [intros; lia|intros; lia].
  - destruct (char_at_is t p i) eqn:E.
    + destruct (IH (S i)) as [H1 H2]. split.
      * intros k Hk. destruct k as [|k]; [now rewrite Nat.add_0_r|].
        replace (i + S k) with (S i + k) by lia. apply H1. lia.
      * intros Hl. replace (i + S (run_len t p (S i) f)) with (S i + run_len t p (S i) f) by lia.
        apply H2. lia.
    + split; [intros; lia|]. intros _. now rewrite Nat.add_0_r.
Qed.

Lemma char_at_is_len (t : pystr) (p : ascii -> bool) (i : nat) :
  List.length t <= i -> char_at_is t p i = false.
Proof.
  intros H. unfold char_at_is, char_at. now rewrite (proj2 (nth_error_None t i) H).
Qed.


Lemma rev_seq_S (lo n : nat) : rev (seq lo (S n)) = (lo + n) :: rev (seq lo n).
Proof. rewrite seq_S. rewrite rev_app_distr. reflexivity. Qed.

(** A greedy repetition of a class, run alone, takes the whole run. *)
Lemma match_at_rep_greedy (t : pystr) (p : ascii -> bool) (lo : nat) (i : nat) :
  match_at t (Rep p lo None true) i =
  let L := run_len t p i (List.length t) in
  if L <? lo then None else Some (i, i + L, []).
Proof.
  unfold match_at. simpl. unfold rep_counts.
  set (L := run_len t p i (List.length t)).
  destruct (L <? lo) eqn:E; [reflexivity|]. apply Nat.ltb_ge in E.
  replace (S L - lo) with (S (L - lo)) by lia. rewrite rev_seq_S. simpl.
  now replace (lo + (L - lo)) with L by lia.
Qed.


(* ---------------- normalizer: positions and the word page ---------------- *)

Lemma nth_error_firstn' {A : Type} (l : list A) :
  forall n k, nth_error (firstn n l) k = if k <? n then nth_error l k else None.
Proof.
  induction l as [|x l IH]; intros [|n] [|k]; simpl; try reflexivity;
    try (destruct (_ <? _); reflexivity).
  rewrite IH. reflexivity.
Qed.

Lemma nth_error_skipn' {A : Type} (l : list A) :
  forall a k, nth_error (skipn a l) k = nth_error l (a + k).
Proof.
  induction l as [|x l IH]; intros [|a] k; simpl; auto.
  destruct k; reflexivity.
Qed.





Lemma length_slice (t : pystr) (a b : nat) :
  List.length (slice t a b) = Nat.min (b - a) (List.length t - a).
Proof. unfold slice. now rewrite length_firstn, length_skipn. Qed.

Lemma In_char_at (u : pystr) (x : ascii) :
  In x u -> exists k, nth_error u k = Some x.
Proof. intros H. apply In_nth_error in H. exact H. Qed.

(** Characters of a [sub] result come from the text or the replacement. *)
Lemma In_firstn' {A : Type} (x : A) (n : nat) (l : list A) : In x (firstn n l) -> In x l.
Proof. intros H. rewrite <- (firstn_skipn n l). apply in_or_app. now left. Qed.
Lemma In_skipn' {A : Type} (x : A) (n : nat) (l : list A) : In x (skipn n l) -> In x l.
Proof. intros H. rewrite <- (firstn_skipn n l). apply in_or_app. now right. Qed.
Lemma In_slice (t : pystr) (a b : nat) (x : ascii) : In x (slice t a b) -> In x t.
Proof. unfold slice. intros H. apply In_firstn' in H. now apply In_skipn' in H. Qed.

Lemma sub_from_chars (t : pystr) (r : regex) (repl : pystr) :
  forall fuel pos x, In x (sub_from t r repl pos fuel) -> In x t \/ In x repl.
Proof.
  induction fuel as [|f IH]; intros pos x H; simpl in H.
  - left. now apply In_skipn' in H.
  - destruct (search t r pos) as [[[i j] c]|]; [|left; now apply In_skipn' in H].
    apply in_app_or in H as [H|H]; [left; now apply In_slice in H|].
    apply in_app_or in H as [H|H]; [now right|].
    destruct (j =? i); [apply in_app_or in H as [H|H]; [left; now apply In_slice in H|]|];
      now apply IH in H.
Qed.

Lemma sub_chars (t : pystr) (r : regex) (repl : pystr) (x : ascii) :
  In x (sub t r repl) -> In x t \/ In x repl.
Proof. apply sub_from_chars. Qed.


Lemma ascii_all (P : ascii -> bool) :
  forallb (fun n => P (ascii_of_nat n)) (seq 0 256) = true -> forall x, P x = true.
Proof.
  intros H x. rewrite <- (ascii_nat_embedding x).
  rewrite forallb_forall in H. apply H. apply in_seq.
  pose proof (nat_ascii_bounded x). lia.
Qed.



(* ---------------- normalizer: substitution facts ---------------- *)



Lemma In_slice_pos (t : pystr) (a b : nat) (x : ascii) :
  In x (slice t a b) -> exists k, a <= k < b /\ nth_error t k = Some x.
Proof.
  intros H. apply In_nth_error in H as [k Hk]. unfold slice in Hk.
  rewrite nth_error_firstn' in Hk. destruct (k <? b - a) eqn:E; [|discriminate].
  apply Nat.ltb_lt in E. rewrite nth_error_skipn' in Hk. exists (a + k). split; [lia|exact Hk].
Qed.

Lemma In_skipn_pos (t : pystr) (a : nat) (x : ascii) :
  In x (skipn a t) -> exists k, a <= k < List.length t /\ nth_error t k = Some x.
Proof.
  intros H. apply In_nth_error in H as [k Hk]. rewrite nth_error_skipn' in Hk.
  exists (a + k). split; [|exact Hk]. split; [lia|].
  apply nth_error_Some. congruence.
Qed.

Lemma match_at_chr (t : pystr) (q : ascii -> bool) (k : nat) :
  match_at t (Chr q) k = if char_at_is t q k then Some (k, S k, []) else None.
Proof. reflexivity. Qed.

Lemma char_at_is_nth (t : pystr) (q : ascii -> bool) (k : nat) (x : ascii) :
  nth_error t k = Some x -> char_at_is t q k = q x.
Proof. unfold char_at_is, char_at. now intros ->. Qed.



Lemma char_at_is_lt (t : pystr) (p : ascii -> bool) (i : nat) :
  char_at_is t p i = true -> i < List.length t.
Proof.
  intros H. destruct (Nat.lt_ge_cases i (List.length t)) as [Hl|Hl]; [exact Hl|].
  now rewrite char_at_is_len in H.
Qed.

Lemma run_len_ge (t : pystr) (p : ascii -> bool) :
  forall fuel i n, (forall d, d < n -> char_at_is t p (i + d) = true) -> n <= fuel ->
  n <= run_len t p i fuel.
Proof.
  induction fuel as [|f IH]; intros i n H Hn; simpl; [lia|].
  destruct n as [|n]; [lia|].
  pose proof (H 0 ltac:(lia)) as H0. rewrite Nat.add_0_r in H0. rewrite H0.
  apply le_n_S. apply IH; [|lia]. intros d Hd.
  replace (S i + d) with (i + S d) by lia. apply H. lia.
Qed.


(* ---------------- normalizer: adjacent whitespace ---------------- *)






(* ---------------- normalizer: strip and the second pass ---------------- *)

Lemma lstrip_suffix (p : ascii -> bool) (s : pystr) : exists a, s = a ++ lstrip_by p s.
Proof.
  induction s as [|x s [a IH]]; simpl; [now exists []|].
  destruct (p x); [exists (x :: a); simpl; now f_equal|now exists []].
Qed.




Lemma rstrip_prefix (p : ascii -> bool) (v : pystr) : exists b, v = rstrip_by p v ++ b.
Proof.
  destruct (lstrip_suffix p (rev v)) as [a Ha]. exists (rev a). unfold rstrip_by.
  rewrite <- rev_app_distr, <- Ha. now rewrite rev_involutive.
Qed.

Lemma strip_infix (p : ascii -> bool) (s : pystr) : exists a b, s = a ++ strip_by p s ++ b.
Proof.
  destruct (lstrip_suffix p s) as [a Ha]. destruct (rstrip_prefix p (lstrip_by p s)) as [b Hb].
  exists a, b. unfold strip_by. rewrite <- Hb. exact Ha.
Qed.




Lemma char_at_is_true (t : pystr) (p : ascii -> bool) (k : nat) :
  char_at_is t p k = true -> exists x, nth_error t k = Some x /\ p x = true.
Proof. unfold char_at_is, char_at. destruct (nth_error t k); [eauto|discriminate]. Qed.



Lemma m_seq {A : Type} (t : pystr) (r1 r2 : regex) (i : nat) (c : caps)
  (k : nat -> caps -> option A) :
  m t (Seq r1 r2) i c k = m t r1 i c (fun j c' => m t r2 j c' k).
Proof. reflexivity. Qed.















(* ---------------- normalizer: idempotence ---------------- *)




















Lemma filter_all_true {A : Type} (f : A -> bool) (l : list A) :
  (forall x, In x l -> f x = true) -> filter f l = l.
Proof.
  induction l as [|x l IH]; intros H; simpl; [reflexivity|].
  rewrite (H x (or_introl eq_refl)). f_equal. apply IH. intros y Hy. apply H. now right.
Qed.

Lemma filter_all_false {A : Type} (f : A -> bool) (l : list A) :
  (forall x, In x l -> f x = false) -> filter f l = [].
Proof.
  induction l as [|x l IH]; intros H; simpl; [reflexivity|].
  rewrite (H x (or_introl eq_refl)). apply IH. intros y Hy. apply H. now right.
Qed.

Lemma skipn_split3 (t : pystr) (pos i : nat) :
  pos <= i -> skipn pos t = slice t pos i ++ skipn i t.
Proof.
  intros H. unfold slice. rewrite <- (firstn_skipn (i - pos) (skipn pos t)) at 1.
  f_equal. rewrite skipn_skipn. f_equal. lia.
Qed.

(** [re.sub(r, "", t)] for a pattern whose matches are the runs (or single
    characters) of a class [p] deletes exactly the characters of [p]. *)
Lemma sub_from_filter (t : pystr) (r : regex) (p : ascii -> bool) :
  (forall i i' j c, match_at t r i = Some (i', j, c) ->
     i < j /\ forall k, i <= k < j -> char_at_is t p k = true) ->
  (forall k, match_at t r k = None -> char_at_is t p k = false) ->
  forall fuel pos, List.length t < pos + fuel ->
  sub_from t r [] pos fuel = filter (fun c => negb (p c)) (skipn pos t).
Proof.
  intros Hm Hn. induction fuel as [|f IH]; intros pos Hf; simpl sub_from.
  - rewrite skipn_all2 by lia. reflexivity.
  - destruct (search t r pos) as [[[i j] c]|] eqn:Es.
    + unfold search in Es. apply search_from_Some in Es as (i0 & Hpos & _ & Hmi & Hbefore).
      pose proof (match_at_start _ _ _ _ _ _ Hmi) as Hi. subst i.
      destruct (Hm _ _ _ _ Hmi) as [Hij Hin].
      replace (j =? i0) with false by (symmetry; apply Nat.eqb_neq; lia).
      rewrite IH by lia. simpl app.
      rewrite (skipn_split3 t pos i0 Hpos), (skipn_split3 t i0 j ltac:(lia)).
      rewrite !filter_app. rewrite (filter_all_false _ (slice t i0 j)), app_nil_l.
      * f_equal. symmetry. apply filter_all_true. intros x Hx.
        apply In_slice_pos in Hx as (k & Hk & Hx). rewrite <- (char_at_is_nth t p k x Hx).
        now rewrite (Hn k (Hbefore k Hk)).
      * intros x Hx. apply In_slice_pos in Hx as (k & Hk & Hx).
        rewrite <- (char_at_is_nth t p k x Hx). now rewrite (Hin k Hk).
    + unfold search in Es. symmetry. apply filter_all_true. intros x Hx.
      apply In_skipn_pos in Hx as (k & Hk & Hx). rewrite <- (char_at_is_nth t p k x Hx).
      rewrite (Hn k); [reflexivity|]. apply (search_from_None _ _ _ _ Es). lia.
Qed.

Lemma plus_match_props (t : pystr) (p : ascii -> bool) :
  (forall i i' j c, match_at t (plus p) i = Some (i', j, c) ->
     i < j /\ forall k, i <= k < j -> char_at_is t p k = true) /\
  (forall k, match_at t (plus p) k = None -> char_at_is t p k = false).
Proof.
  split.
  - intros i i' j c. unfold plus. rewrite match_at_rep_greedy. cbv zeta.
    destruct (_ <? 1) eqn:E; [discriminate|]. apply Nat.ltb_ge in E.
    intros H. injection H as <- <- <-. split; [lia|].
    intros k Hk. destruct (run_len_spec t p (List.length t) i) as [Hr _].
    replace k with (i + (k - i)) by lia. apply Hr. lia.
  - intros k. unfold plus. rewrite match_at_rep_greedy. cbv zeta.
    destruct (char_at_is t p k) eqn:E; [|reflexivity].
    pose proof (char_at_is_lt _ _ _ E).
    assert (1 <= run_len t p k (List.length t)).
    { apply run_len_ge; [|lia]. intros d Hd. replace d with 0 by lia. now rewrite Nat.add_0_r. }
    replace (run_len t p k (List.length t) <? 1) with false by (symmetry; apply Nat.ltb_ge; lia).
    discriminate.
Qed.

Lemma sub_plus_filter (t : pystr) (p : ascii -> bool) :
  sub t (plus p) [] = filter (fun c => negb (p c)) t.
Proof.
  destruct (plus_match_props t p) as [Hm Hn].
  unfold sub. rewrite (sub_from_filter t (plus p) p Hm Hn); [reflexivity|lia].
Qed.

Lemma chr_match_props (t : pystr) (p : ascii -> bool) :
  (forall i i' j c, match_at t (Chr p) i = Some (i', j, c) ->
     i < j /\ forall k, i <= k < j -> char_at_is t p k = true) /\
  (forall k, match_at t (Chr p) k = None -> char_at_is t p k = false).
Proof.
  split.
  - intros i i' j c. rewrite match_at_chr. destruct (char_at_is t p i) eqn:E; [|discriminate].
    intros H. injection H as <- <- <-. split; [lia|]. intros k Hk. now replace k with i by lia.
  - intros k. rewrite match_at_chr. destruct (char_at_is t p k); [discriminate|reflexivity].
Qed.

Lemma sub_chr_filter (t : pystr) (p : ascii -> bool) :
  sub t (Chr p) [] = filter (fun c => negb (p c)) t.
Proof.
  destruct (chr_match_props t p) as [Hm Hn].
  unfold sub. rewrite (sub_from_filter t (Chr p) p Hm Hn); [reflexivity|lia].
Qed.

Lemma isupper_from_spec (cased : bool) (l : pystr) :
  isupper_from cased l = true <->
  (forall c, In c l -> is_lower_c c = false) /\ (cased = true \/ exists c, In c l /\ is_upper_c c = true).
Proof.
  revert cased. induction l as [|x l IH]; intros cased; simpl.
  - split; [intros ->; split; [intros c []|now left]|].
    intros [_ [H|[c [[] _]]]]. exact H.
  - destruct (is_lower_c x) eqn:Ex.
    + split; [discriminate|]. intros [H _]. rewrite (H x (or_introl eq_refl)) in Ex. discriminate.
    + rewrite IH. split.
      * intros [H1 [H2|(c & Hc & Hu)]].
        -- split; [intros c [<-|Hc]; [exact Ex|exact (H1 c Hc)]|].
           destruct cased; [now left|]. right. exists x. split; [now left|exact H2].
        -- split; [intros c' [<-|Hc']; [exact Ex|exact (H1 c' Hc')]|].
           right. exists c. split; [now right|exact Hu].
      * intros [H1 [H2|(c & [<-|Hc] & Hu)]].
        -- split; [intros c Hc; apply H1; now right|]. left. now rewrite H2.
        -- split; [intros c' Hc'; apply H1; now right|]. left. rewrite Hu. apply orb_true_r.
        -- split; [intros c' Hc'; apply H1; now right|]. right. now exists c.
Qed.

Lemma ascii_letter_case (c : ascii) :
  is_ascii_letter c = true ->
  is_lower_c c = in_range 97 122 (code c) /\ is_upper_c c = in_range 65 90 (code c).
Proof.
  intros H.
  pose proof (ascii_all (fun c => negb (is_ascii_letter c) ||
                 (Bool.eqb (is_lower_c c) (in_range 97 122 (code c)) &&
                  Bool.eqb (is_upper_c c) (in_range 65 90 (code c))))
                ltac:(vm_compute; reflexivity) c) as G.
  cbv beta in G. rewrite H in G. simpl in G. apply andb_prop in G as [G1 G2].
  apply Bool.eqb_prop in G1. apply Bool.eqb_prop in G2. now split.
Qed.

(** X2: [_alt_is_all_caps s] holds exactly when [s] has an ASCII letter and no
    ASCII lower-case letter; every other character is ignored. *)
Theorem alt_is_all_caps_spec (s : pystr) :
  _alt_is_all_caps s = true <->
  (exists c, In c s /\ is_ascii_letter c = true) /\
  (forall c, In c s -> in_range 97 122 (code c) = false).
Proof.
  unfold _alt_is_all_caps, re_non_letters. rewrite sub_plus_filter.
  assert (Hf : filter (fun c => negb (negb (is_ascii_letter c))) s = filter is_ascii_letter s)
    by (apply filter_ext; intros c; apply negb_involutive).
  rewrite Hf.
  destruct (filter is_ascii_letter s) as [|x l] eqn:E.
  - split; [discriminate|]. intros [(c & Hc & Hl) _].
    assert (In c (filter is_ascii_letter s)) by (apply filter_In; now split).
    rewrite E in H. destruct H.
  - unfold py_isupper. rewrite <- E, isupper_from_spec. split.
    + intros [H1 [H2|(c & Hc & Hu)]]; [discriminate|].
      apply filter_In in Hc as [Hc Hl]. split; [now exists c|].
      intros c' Hc'. destruct (is_ascii_letter c') eqn:El.
      * rewrite <- (proj1 (ascii_letter_case c' El)). apply H1. now apply filter_In.
      * unfold is_ascii_letter in El. now apply orb_false_iff in El as [_ El].
    + intros [(c & Hc & Hl) H2]. split.
      * intros c' Hc'. apply filter_In in Hc' as [Hc' Hl'].
        rewrite (proj1 (ascii_letter_case c' Hl')). now apply H2.
      * right. exists c. split; [now apply filter_In|].
        rewrite (proj2 (ascii_letter_case c Hl)). specialize (H2 c Hc).
        unfold is_ascii_letter in Hl. rewrite H2, orb_false_r in Hl. exact Hl.
Qed.

Lemma dehyph_no_hyphen (ls : list pystr) :
  forall acc, (forall l, In l acc -> py_endswith (lit "-") (py_rstrip l) = false) ->
  (forall l, In l ls -> py_endswith (lit "-") (py_rstrip l) = false) ->
  fold_left dehyph_step ls acc = rev ls ++ acc.
Proof.
  induction ls as [|x ls IH]; intros acc Ha Hl; simpl; [reflexivity|].
  rewrite <- app_assoc. simpl.
  assert (Hs : dehyph_step acc x = x :: acc).
  { destruct acc as [|last rest]; [reflexivity|]. unfold dehyph_step.
    now rewrite (Ha last (or_introl eq_refl)). }
  rewrite Hs. apply IH.
  - intros l [<-|Hl']; [apply Hl; now left|now apply Ha].
  - intros l Hl'. apply Hl. now right.
Qed.

Lemma dehyph_no_lower (ls : list pystr) :
  forall acc, (forall l, In l ls -> py_islower (firstn 1 l) = false) ->
  fold_left dehyph_step ls acc = rev ls ++ acc.
Proof.
  induction ls as [|x ls IH]; intros acc Hl; simpl; [reflexivity|].
  rewrite <- app_assoc. simpl.
  assert (Hs : dehyph_step acc x = x :: acc).
  { destruct acc as [|last rest]; [reflexivity|]. unfold dehyph_step.
    now rewrite (Hl x (or_introl eq_refl)), andb_false_r. }
  rewrite Hs. apply IH. intros l Hl'. apply Hl. now right.
Qed.

Lemma dehyph_length (ls : list pystr) :
  forall acc, List.length (fold_left dehyph_step ls acc) <= List.length ls + List.length acc.
Proof.
  induction ls as [|x ls IH]; intros acc; simpl; [lia|].
  specialize (IH (dehyph_step acc x)).
  assert (List.length (dehyph_step acc x) <= S (List.length acc)).
  { destruct acc as [|last rest]; simpl; [lia|].
    destruct (_ && _); simpl; lia. }
  lia.
Qed.

(** X3: [_dehyphenate_lines] never adds lines, and returns its input unchanged
    when no line ends in "-" (after trailing whitespace) or when no line
    starts with a lower-case letter. *)
Theorem dehyphenate_lines_props (ls : list pystr) :
  List.length (_dehyphenate_lines ls) <= List.length ls /\
  ((forall l, In l ls -> py_endswith (lit "-") (py_rstrip l) = false) -> _dehyphenate_lines ls = ls) /\
  ((forall l, In l ls -> py_islower (firstn 1 l) = false) -> _dehyphenate_lines ls = ls).
Proof.
  unfold _dehyphenate_lines. split; [|split].
  - rewrite length_rev. pose proof (dehyph_length ls []). simpl in H. lia.
  - intros H. rewrite dehyph_no_hyphen; [|intros l []|exact H]. now rewrite app_nil_r, rev_involutive.
  - intros H. rewrite dehyph_no_lower by exact H. now rewrite app_nil_r, rev_involutive.
Qed.

(** X1: [verify_and_select_name] returns one of its two arguments, and
    returns "Unknown" only when both are "Unknown". *)
Theorem verify_and_select_name_props (n1 n2 : pystr) :
  (verify_and_select_name n1 n2 = n1 \/ verify_and_select_name n1 n2 = n2) /\
  (verify_and_select_name n1 n2 = UNKNOWN -> n1 = UNKNOWN /\ n2 = UNKNOWN).
Proof.
  assert (Hrefl : forall x, str_eqb x x = true) by (intros x; now apply str_eqb_eq).
  unfold verify_and_select_name.
  destruct (str_eqb n1 n2 || str_eqb n2 UNKNOWN) eqn:E.
  - split; [now left|]. intros ->.
    apply orb_true_iff in E as [E|E]; apply str_eqb_eq in E; subst; auto.
  - apply orb_false_iff in E as [E12 E2]. destruct (str_eqb n1 UNKNOWN) eqn:E1.
    + split; [now right|]. intros ->. now rewrite Hrefl in E2.
    + destruct (_ <=? _); split; try (now left); try (now right);
        intros ->; [now rewrite Hrefl in E1|now rewrite Hrefl in E2].
Qed.

(* ---------------- matcher: inversion lemmas ---------------- *)



Lemma m_chr_inv {A : Type} (t : pystr) (p : ascii -> bool) (i : nat) (c : caps)
  (k : nat -> caps -> option A) (x : A) :
  m t (Chr p) i c k = Some x -> char_at_is t p i = true /\ k (S i) c = Some x.
Proof. simpl. destruct (char_at_is t p i); [auto|discriminate]. Qed.

Lemma In_rep_counts_chars (t : pystr) (p : ascii -> bool) (i lo : nat) (hi : option nat)
  (g : bool) (n : nat) :
  In n (rep_counts t p i lo hi g) ->
  lo <= n /\ forall d, d < n -> char_at_is t p (i + d) = true.
Proof.
  unfold rep_counts.
  set (cap := match hi with Some h => h | None => List.length t end).
  destruct (run_len_spec t p cap i) as [Hr _].
  destruct (_ <? lo) eqn:E; [intros []|]. apply Nat.ltb_ge in E.
  intros H. destruct g; [apply in_rev in H|]; apply in_seq in H;
    (split; [lia|intros d Hd; apply Hr; lia]).
Qed.

Lemma m_rep_inv {A : Type} (t : pystr) (p : ascii -> bool) (lo : nat) (hi : option nat)
  (g : bool) (i : nat) (c : caps) (k : nat -> caps -> option A) (x : A) :
  m t (Rep p lo hi g) i c k = Some x ->
  exists n, lo <= n /\ (forall d, d < n -> char_at_is t p (i + d) = true) /\
            k (i + n) c = Some x.
Proof.
  simpl. intros H. apply first_some_Some in H as [n [Hn H]].
  apply In_rep_counts_chars in Hn as [Hlo Hc]. eauto.
Qed.






(* ---------------- slices ---------------- *)

Lemma firstn_add' {A : Type} (n k : nat) (l : list A) :
  firstn (n + k) l = firstn n l ++ firstn k (skipn n l).
Proof.
  revert l. induction n as [|n IH]; intros l; [reflexivity|].
  destruct l as [|x l]; simpl; [now rewrite firstn_nil|]. now rewrite IH.
Qed.

Lemma slice_split (t : pystr) (a b c : nat) :
  a <= b -> b <= c -> slice t a c = slice t a b ++ slice t b c.
Proof.
  intros Hab Hbc. unfold slice. replace (c - a) with ((b - a) + (c - b)) by lia.
  rewrite firstn_add', skipn_skipn. replace (b - a + a) with b by lia. reflexivity.
Qed.

Lemma slice_infix (t : pystr) (a b : nat) :
  a <= b -> t = firstn a t ++ slice t a b ++ skipn b t.
Proof.
  intros Hab. unfold slice. rewrite <- (firstn_skipn a t) at 1. f_equal.
  rewrite <- (firstn_skipn (b - a) (skipn a t)) at 1. f_equal.
  rewrite skipn_skipn. f_equal. lia.
Qed.

Lemma slice_run (t : pystr) (p : ascii -> bool) (i n : nat) :
  (forall d, d < n -> char_at_is t p (i + d) = true) ->
  List.length (slice t i (i + n)) = n /\ forallb p (slice t i (i + n)) = true.
Proof.
  intros H. split.
  - rewrite length_slice. destruct n as [|n]; [lia|].
    assert (Hl : i + n < List.length t) by (apply (char_at_is_lt t p), H; lia). lia.
  - apply forallb_forall. intros x Hx. apply In_slice_pos in Hx as [k [Hk Hx]].
    specialize (H (k - i) ltac:(lia)). replace (i + (k - i)) with k in H by lia.
    now rewrite (char_at_is_nth t p k x Hx) in H.
Qed.

Lemma slice_chr (t : pystr) (ch : ascii) (i : nat) :
  char_at_is t (c_is ch) i = true -> slice t i (S i) = [ch].
Proof.
  intros H. apply char_at_is_true in H as [y [Hy He]]. unfold c_is in He.
  apply ascii_eqb_eq in He. subst. unfold slice. replace (S i - i) with 1 by lia.
  pose proof (nth_error_skipn' t i 0) as E. rewrite Nat.add_0_r, Hy in E.
  destruct (skipn i t) as [|z u]; simpl in E; [discriminate|]. injection E as ->. reflexivity.
Qed.

(* ---------------- substring tests ---------------- *)







Lemma search_match_at (t : pystr) (r : regex) (x : mtch) :
  search t r 0 = Some x -> exists i, match_at t r i = Some x.
Proof. unfold search. intros H. apply search_from_Some in H as (i & _ & _ & H & _). eauto. Qed.

(* ---------------- the URL patterns ---------------- *)




(* ==================== extras ==================== *)

(** X4: [extract_email] returns a substring of the text made of a non-empty
    local part, one "@", a non-empty domain part, a dot and a non-empty run
    of ASCII letters, each part within its character class; the address holds
    exactly one "@". *)
Theorem extract_email_shape (text : pystr) :
  match extract_email text with
  | Some e =>
      (exists i j, e = slice text i j) /\
      (exists l d tld,
         e = l ++ "@"%char :: d ++ "."%char :: tld /\ l <> [] /\ d <> [] /\ tld <> [] /\
         forallb email_local_c l = true /\ forallb email_domain_c d = true /\
         forallb is_ascii_letter tld = true) /\
      count_occ ascii_dec e "@"%char = 1
  | None => True
  end.
Proof.
  unfold extract_email. destruct (search text re_email 0) as [x|] eqn:Hs; [|exact I].
  apply search_match_at in Hs as [i H]. unfold match_at in H.
  change re_email with (Seq (plus email_local_c) (Seq (Chr (c_is "@"%char))
    (Seq (plus email_domain_c) (Seq (Chr (c_is "."%char)) (plus is_ascii_letter))))) in H.
  rewrite m_seq in H. apply m_rep_inv in H as (n1 & Hn1 & Hc1 & H). cbv beta in H.
  rewrite m_seq in H. apply m_chr_inv in H as [Hat H]. cbv beta in H.
  rewrite m_seq in H. apply m_rep_inv in H as (n2 & Hn2 & Hc2 & H). cbv beta in H.
  rewrite m_seq in H. apply m_chr_inv in H as [Hdot H]. cbv beta in H.
  apply m_rep_inv in H as (n3 & Hn3 & Hc3 & H). injection H as <-. simpl group0.
  set (a1 := i + n1) in *. set (a3 := S a1 + n2) in *. set (j := S a3 + n3).
  destruct (slice_run text _ _ _ Hc1) as [Hl1 Hf1].
  destruct (slice_run text _ _ _ Hc2) as [Hl2 Hf2].
  destruct (slice_run text _ _ _ Hc3) as [Hl3 Hf3].
  assert (He : slice text i j =
               slice text i a1 ++ "@"%char :: slice text (S a1) a3 ++ "."%char ::
               slice text (S a3) j).
  { rewrite (slice_split text i a1 j) by lia.
    rewrite (slice_split text a1 (S a1) j), (slice_chr _ _ _ Hat) by lia.
    rewrite (slice_split text (S a1) a3 j) by lia.
    rewrite (slice_split text a3 (S a3) j), (slice_chr _ _ _ Hdot) by lia. reflexivity. }
  assert (Hnil : forall (u : pystr) n, List.length u = n -> 1 <= n -> u <> []).
  { intros u n Hu Hn Hz; subst u; simpl in Hu; lia. }
  split; [exists i, j; reflexivity|]. split.
  - exists (slice text i a1), (slice text (S a1) a3), (slice text (S a3) j).
    split; [exact He|]. split; [exact (Hnil _ _ Hl1 Hn1)|].
    split; [exact (Hnil _ _ Hl2 Hn2)|]. split; [exact (Hnil _ _ Hl3 Hn3)|].
    split; [exact Hf1|]. split; [exact Hf2|exact Hf3].
  - change (count_occ ascii_dec (slice text i j) "@"%char = 1).
    rewrite He. subst a1 a3 j.
    assert (H0 : forall (p : ascii -> bool) u, forallb p u = true -> p "@"%char = false ->
                 count_occ ascii_dec u "@"%char = 0).
    { intros p u Hu Hp. apply count_occ_not_In. intros Hin.
      rewrite forallb_forall in Hu. specialize (Hu _ Hin). congruence. }
    rewrite count_occ_app, (H0 _ _ Hf1) by reflexivity. cbn [count_occ].
    destruct (ascii_dec "@"%char "@"%char) as [_|Hne]; [|congruence].
    rewrite count_occ_app, (H0 _ _ Hf2) by reflexivity. cbn [count_occ].
    destruct (ascii_dec "."%char "@"%char) as [Heq|_]; [discriminate|].
    rewrite (H0 _ _ Hf3) by reflexivity. reflexivity.
Qed.



(* ---------------- phone ---------------- *)

Lemma findall1_slices (text : pystr) (r : regex) (u : pystr) :
  In u (findall1 text r) -> exists i j, u = slice text i j.
Proof.
  unfold findall1. intros H. apply in_map_iff in H as [x [<- _]].
  destruct x as [[a b] c]. unfold group.
  destruct (find (fun e => fst e =? 1) c) as [[g [i j]]|].
  - eauto.
  - exists 0, 0. reflexivity.
Qed.

Lemma filter_length_infix {A : Type} (f : A -> bool) (a u b : list A) :
  List.length (filter f u) <= List.length (filter f (a ++ u ++ b)).
Proof. rewrite !filter_app, !length_app. lia. Qed.

Lemma digits_of_slice (text : pystr) (i j : nat) :
  List.length (filter is_digit (py_strip (slice text i j))) <= List.length (filter is_digit text).
Proof.
  destruct (strip_infix is_space (slice text i j)) as [a [b Hab]].
  assert (Hi : forall k, exists a' b', text = a' ++ slice text k (k + (j - i)) ++ b').
  { intros k. exists (firstn k text), (skipn (k + (j - i)) text).
    apply slice_infix. lia. }
  destruct (Hi i) as [a' [b' Ht]].
  assert (Hs : slice text i (i + (j - i)) = slice text i j).
  { unfold slice. f_equal. lia. }
  rewrite Hs in Ht. unfold py_strip.
  transitivity (List.length (filter is_digit (slice text i j))).
  - rewrite Hab at 2. apply filter_length_infix.
  - rewrite Ht at 2. apply filter_length_infix.
Qed.

Lemma sub_non_digit (u : pystr) : sub u re_non_digit [] = filter is_digit u.
Proof.
  unfold re_non_digit. rewrite sub_chr_filter. apply filter_ext. intros c. apply negb_involutive.
Qed.

(* ---------------- splitlines ---------------- *)


(** The characters of the pieces of [splitlines_acc]. *)
Lemma splitlines_acc_chars (s : pystr) :
  forall cur l c, (forall y, In y cur -> is_line_boundary y = false) ->
  In l (splitlines_acc cur s) -> In c l ->
  is_line_boundary c = false /\ (In c cur \/ In c s).
Proof.
  induction s as [s IH] using (induction_ltof1 _ (@List.length ascii)); unfold ltof in IH.
  intros cur l c Hcur Hl Hc. destruct s as [|x s'].
  - simpl in Hl. destruct cur as [|y cur']; [destruct Hl|].
    destruct Hl as [<-|[]]. apply in_rev in Hc. split; [now apply Hcur|now left].
  - assert (Hnew : forall l', In l' (splitlines_acc [] s') -> In c l' ->
                   is_line_boundary c = false /\ (In c cur \/ In c (x :: s'))).
    { intros l' Hl' Hc'. destruct (IH s' ltac:(simpl; lia) [] l' c ltac:(intros y []) Hl' Hc')
        as [Hb [[]|Hin]].
      split; [exact Hb|right; now right]. }
    assert (Hcur' : In l [rev cur] -> is_line_boundary c = false /\ (In c cur \/ In c (x :: s'))).
    { intros [<-|[]]. apply in_rev in Hc. split; [now apply Hcur|now left]. }
    simpl in Hl. destruct (is_line_boundary x) eqn:Ex.
    + destruct (ascii_eqb x CR).
      * destruct s' as [|d s''].
        -- destruct Hl as [<-|Hl]; [apply Hcur'; now left|]. exact (Hnew l Hl Hc).
        -- destruct (ascii_eqb d NL).
           ++ destruct Hl as [<-|Hl]; [apply Hcur'; now left|].
              destruct (IH s'' ltac:(simpl; lia) [] l c ltac:(intros y []) Hl Hc)
                as [Hb [[]|Hin]].
              split; [exact Hb|right; right; now right].
           ++ destruct Hl as [<-|Hl]; [apply Hcur'; now left|]. exact (Hnew l Hl Hc).
      * destruct Hl as [<-|Hl]; [apply Hcur'; now left|]. exact (Hnew l Hl Hc).
    + destruct (IH s' ltac:(simpl; lia) (x :: cur) l c) as [Hb Hin]; auto.
      * intros y [<-|Hy]; [exact Ex|now apply Hcur].
      * split; [exact Hb|]. destruct Hin as [[<-|Hin]|Hin]; simpl; auto.
Qed.

Lemma splitlines_chars (s l : pystr) (c : ascii) :
  In l (py_splitlines s) -> In c l -> is_line_boundary c = false /\ In c s.
Proof.
  unfold py_splitlines. intros Hl Hc.
  destruct (splitlines_acc_chars s [] l c ltac:(intros y []) Hl Hc) as [Hb [[]|Hin]]. auto.
Qed.

(* ---------------- dehyphenation keeps characters ---------------- *)

Lemma In_removelast {A : Type} (x : A) (l : list A) : In x (removelast l) -> In x l.
Proof.
  induction l as [|a l IH]; simpl; [auto|]. destruct l as [|b l]; [intros []|].
  intros [<-|H]; [now left|right; auto].
Qed.

Lemma In_rstrip (p : ascii -> bool) (x : ascii) (s : pystr) : In x (rstrip_by p s) -> In x s.
Proof.
  intros H. destruct (rstrip_prefix p s) as [b Hb]. rewrite Hb. apply in_or_app. now left.
Qed.

Lemma In_lstrip (p : ascii -> bool) (x : ascii) (s : pystr) : In x (lstrip_by p s) -> In x s.
Proof.
  intros H. destruct (lstrip_suffix p s) as [a Ha]. rewrite Ha. apply in_or_app. now right.
Qed.

Lemma dehyph_chars (ls : list pystr) :
  forall acc l c, In l (fold_left dehyph_step ls acc) -> In c l ->
  exists l0, (In l0 acc \/ In l0 ls) /\ In c l0.
Proof.
  induction ls as [|ln ls IH]; intros acc l c Hl Hc; simpl in Hl.
  - exists l. auto.
  - destruct (IH _ _ _ Hl Hc) as [l0 [Hin Hc0]].
    destruct Hin as [Hin|Hin]; [|exists l0; split; [right; now right|exact Hc0]].
    unfold dehyph_step in Hin. destruct acc as [|last rest].
    + destruct Hin as [<-|[]]. exists ln. split; [right; now left|exact Hc0].
    + destruct (_ && _).
      * destruct Hin as [<-|Hin]; [|exists l0; split; [left; now right|exact Hc0]].
        apply in_app_or in Hc0 as [Hc0|Hc0].
        -- exists last. split; [left; now left|].
           apply In_removelast in Hc0. exact (In_rstrip _ _ _ Hc0).
        -- exists ln. split; [right; now left|]. exact (In_lstrip _ _ _ Hc0).
      * destruct Hin as [<-|Hin]; [exists ln; split; [right; now left|exact Hc0]|].
        exists l0. split; [left; exact Hin|exact Hc0].
Qed.

Lemma dehyphenate_chars (ls : list pystr) (l : pystr) (c : ascii) :
  In l (_dehyphenate_lines ls) -> In c l -> exists l0, In l0 ls /\ In c l0.
Proof.
  unfold _dehyphenate_lines. intros Hl Hc. apply in_rev in Hl.
  destruct (dehyph_chars ls [] l c Hl Hc) as [l0 [[[]|Hin] Hc0]]. eauto.
Qed.

(* ---------------- join and split ---------------- *)

Lemma split_char_acc_app (sep : ascii) (w : pystr) :
  forall cur r, (forall c, In c w -> c <> sep) ->
  split_char_acc sep cur (w ++ r) = split_char_acc sep (rev w ++ cur) r.
Proof.
  induction w as [|x w IH]; intros cur r Hw; [reflexivity|]. simpl.
  destruct (ascii_eqb x sep) eqn:E.
  - apply ascii_eqb_eq in E. exfalso. apply (Hw x); [now left|exact E].
  - rewrite IH by (intros c Hc; apply Hw; now right). now rewrite <- app_assoc.
Qed.


Lemma ascii_eqb_refl (a : ascii) : ascii_eqb a a = true.
Proof. now apply ascii_eqb_eq. Qed.

Lemma split_join (sep : ascii) (ls : list pystr) :
  ls <> [] -> (forall l c, In l ls -> In c l -> c <> sep) ->
  py_split_char sep (py_join [sep] ls) = ls.
Proof.
  intros Hne Hs. unfold py_split_char. induction ls as [|x ls IH]; [congruence|].
  destruct ls as [|y ls].
  - simpl. rewrite <- (app_nil_r x) at 1.
    rewrite split_char_acc_app by (intros c Hc; apply (Hs x); [now left|exact Hc]).
    simpl. rewrite app_nil_r, rev_involutive. reflexivity.
  - change (py_join [sep] (x :: y :: ls)) with (x ++ [sep] ++ py_join [sep] (y :: ls)).
    rewrite split_char_acc_app by (intros c Hc; apply (Hs x); [now left|exact Hc]).
    simpl. rewrite ascii_eqb_refl, app_nil_r, rev_involutive. f_equal.
    apply IH; [discriminate|]. intros l c Hl. apply Hs. now right.
Qed.

Lemma In_join (sep : pystr) (ls : list pystr) (c : ascii) :
  In c (py_join sep ls) -> In c sep \/ exists l, In l ls /\ In c l.
Proof.
  induction ls as [|x ls IH]; simpl; [intros []|].
  destruct ls as [|y ls]; [intros H; right; exists x; auto|].
  intros H. apply in_app_or in H as [H|H]; [right; exists x; auto|].
  apply in_app_or in H as [H|H]; [now left|].
  destruct (IH H) as [H'|[l [Hl Hc]]]; [now left|right; exists l; auto].
Qed.

Lemma forallb_false_ex {A : Type} (f : A -> bool) (l : list A) :
  forallb f l = false -> exists x, In x l /\ f x = false.
Proof.
  induction l as [|x l IH]; simpl; [discriminate|].
  destruct (f x) eqn:E; simpl; [|intros _; exists x; auto].
  intros H. destruct (IH H) as [y [Hy Hf]]. exists y. auto.
Qed.

Lemma nonblank_ex (l : pystr) : nonblank l = true -> exists c, In c l /\ is_space c = false.
Proof.
  unfold nonblank. destruct (forallb is_space l) eqn:E.
  - unfold py_strip. rewrite (strip_by_all is_space l E). discriminate.
  - intros _. exact (forallb_false_ex _ _ E).
Qed.

(* ---------------- sections of naive_split ---------------- *)

Lemma first_section_key (pats : list (pystr * regex)) (ln sec : pystr) :
  first_section pats ln = Some sec -> In sec (map fst pats).
Proof.
  unfold first_section. destruct (find _ pats) as [[k p]|] eqn:E; [|discriminate].
  intros H. injection H as <-. apply find_some in E as [E _].
  apply (in_map fst) in E. exact E.
Qed.

Lemma dict_append_absent (k x : pystr) (d : sections_dict) :
  ~ In k (map fst d) -> dict_append k x d = d.
Proof.
  induction d as [|[k' v] d IH]; simpl; intros H; [reflexivity|].
  destruct (str_eqb k' k) eqn:E.
  - apply str_eqb_eq in E. exfalso. apply H. now left.
  - f_equal. apply IH. intros Hk. apply H. now right.
Qed.

Lemma dict_append_perm (k x : pystr) (d : sections_dict) :
  NoDup (map fst d) -> In k (map fst d) ->
  Permutation (List.concat (map snd (dict_append k x d))) (List.concat (map snd d) ++ [x]).
Proof.
  induction d as [|[k' v] d IH]; simpl; intros Hnd Hin; [destruct Hin|].
  inversion Hnd as [|? ? Hnot Hnd']; subst.
  destruct (str_eqb k' k) eqn:E.
  - apply str_eqb_eq in E. subst k'. simpl. rewrite (dict_append_absent k x d Hnot).
    rewrite <- !app_assoc. apply Permutation_app_head. apply Permutation_app_comm.
  - simpl. destruct Hin as [Hk|Hin].
    + subst. rewrite (proj2 (str_eqb_eq k k) eq_refl) in E. discriminate.
    + rewrite <- app_assoc. apply Permutation_app_head. exact (IH Hnd' Hin).
Qed.


Lemma naive_fold_props (ls : list pystr) :
  forall st, In (fst st) SECTION_TAGS -> map fst (snd st) = SECTION_TAGS ->
  let st' := fold_left naive_step ls st in
  In (fst st') SECTION_TAGS /\ map fst (snd st') = SECTION_TAGS /\
  Permutation (List.concat (map snd (snd st'))) (List.concat (map snd (snd st)) ++ filter no_header ls).
Proof.
  assert (Hnd : NoDup SECTION_TAGS).
  { unfold SECTION_TAGS. simpl. repeat constructor; simpl; intuition discriminate. }
  induction ls as [|ln ls IH]; intros [cur d] Hcur Hd; simpl.
  - rewrite app_nil_r. auto.
  - unfold no_header at 1. destruct (first_section SECTION_PATTERNS ln) as [sec|] eqn:E.
    + assert (Hsec : In sec SECTION_TAGS).
      { apply first_section_key in E. unfold SECTION_TAGS. simpl in E |- *. tauto. }
      exact (IH (sec, d) Hsec Hd).
    + cbn [fst snd] in Hcur, Hd.
      destruct (IH (cur, dict_append cur ln d)) as (H1 & H2 & H3); simpl;
        [exact Hcur|now rewrite dict_append_keys|].
      split; [exact H1|]. split; [exact H2|].
      rewrite H3. rewrite <- Hd in Hnd, Hcur.
      rewrite (dict_append_perm cur ln d Hnd Hcur), <- app_assoc. reflexivity.
Qed.

(* ==================== extras ==================== *)

(** X7: [extract_phone] returns a number only for a piece of the text whose
    stripped form holds 10 to 15 digits, so the text itself holds at least
    10 digits; the result is the international format of a number that
    [phonenumbers] parsed from that piece or its digits and judged valid. *)
Theorem extract_phone_props (phone_number : Type)
  (parse : pystr -> option pystr -> option phone_number)
  (is_valid_number : phone_number -> bool) (format_international : phone_number -> pystr)
  (text : pystr) :
  match extract_phone phone_number parse is_valid_number format_international text with
  | Some r =>
      10 <= List.length (filter is_digit text) /\
      exists i j pn,
        let cleaned := py_strip (slice text i j) in
        10 <= List.length (filter is_digit cleaned) <= 15 /\
        (parse (filter is_digit cleaned) (Some (lit "IN")) = Some pn \/
         parse cleaned (Some (lit "IN")) = Some pn \/ parse cleaned None = Some pn) /\
        is_valid_number pn = true /\ r = format_international pn
  | None => True
  end.
Proof.
  unfold extract_phone.
  assert (G : forall cands, (forall u, In u cands -> exists i j, u = slice text i j) ->
    match phone_candidates phone_number parse is_valid_number format_international cands with
    | Some r =>
        exists i j pn,
          let cleaned := py_strip (slice text i j) in
          10 <= List.length (filter is_digit cleaned) <= 15 /\
          (parse (filter is_digit cleaned) (Some (lit "IN")) = Some pn \/
           parse cleaned (Some (lit "IN")) = Some pn \/ parse cleaned None = Some pn) /\
          is_valid_number pn = true /\ r = format_international pn
    | None => True
    end).
  { induction cands as [|raw rest IH]; intros Hc; simpl; [exact I|].
    assert (IH' := IH (fun u Hu => Hc u (or_intror Hu))).
    destruct (Hc raw (or_introl eq_refl)) as [i [j ->]].
    rewrite sub_non_digit.
    destruct ((List.length (filter is_digit (py_strip (slice text i j))) <? 10) ||
              (15 <? List.length (filter is_digit (py_strip (slice text i j))))) eqn:Hlen;
      [exact IH'|].
    apply orb_false_iff in Hlen as [Hlo Hhi].
    apply Nat.ltb_ge in Hlo. apply Nat.ltb_ge in Hhi.
    assert (Hfin : forall s reg r, try_phone phone_number parse is_valid_number
                     format_international s reg = Some r ->
                   exists pn, parse s reg = Some pn /\ is_valid_number pn = true /\
                              r = format_international pn).
    { intros s reg r. unfold try_phone. destruct (parse s reg) as [pn|]; [|discriminate].
      destruct (is_valid_number pn) eqn:Ev; [|discriminate].
      intros H. injection H as <-. eauto. }
    destruct (_ && _).
    1: destruct (try_phone _ _ _ _ (filter is_digit _) _) as [r|] eqn:E1.
    1: { destruct (Hfin _ _ _ E1) as (pn & Hp & Hv & ->).
         exists i, j, pn. cbv zeta. split; [lia|]. split; [now left|]. auto. }
    all: destruct (try_phone _ _ _ _ (py_strip (slice text i j)) (Some _)) as [r|] eqn:E2;
      [destruct (Hfin _ _ _ E2) as (pn & Hp & Hv & ->);
       exists i, j, pn; cbv zeta; split; [lia|]; split; [right; now left|]; auto|].
    all: destruct (try_phone _ _ _ _ (py_strip (slice text i j)) None) as [r|] eqn:E3;
      [|exact IH'].
    all: destruct (Hfin _ _ _ E3) as (pn & Hp & Hv & ->);
      exists i, j, pn; cbv zeta; split; [lia|]; split; [right; now right|]; auto. }
  specialize (G (findall1 text re_phone) (findall1_slices text re_phone)).
  destruct (phone_candidates _ _ _ _ _) as [r|]; [|exact I].
  destruct G as (i & j & pn & Hlen & Hrest). cbv zeta in Hlen. split.
  - pose proof (digits_of_slice text i j). lia.
  - exists i, j, pn. exact (conj Hlen Hrest).
Qed.

(** X8: the text both PDF extractors assemble from their page texts is empty
    or made of newline-separated lines each holding a non-whitespace
    character; "\n" is the only line-break character left in it. *)
Theorem join_page_texts_lines (pages_text : list pystr) :
  let out := join_page_texts pages_text in
  (forall c, In c out -> is_line_boundary c = true -> c = NL) /\
  (out = [] \/
   forall l, In l (py_split_char NL out) ->
     (exists c, In c l /\ is_space c = false) /\ (forall c, In c l -> is_line_boundary c = false)).
Proof.
  cbv zeta. unfold join_page_texts.
  set (ls := filter nonblank (_dehyphenate_lines (flat_map py_splitlines pages_text))).
  assert (Hls : forall l c, In l ls -> In c l -> is_line_boundary c = false).
  { intros l c Hl Hc. unfold ls in Hl. apply filter_In in Hl as [Hl _].
    destruct (dehyphenate_chars _ _ _ Hl Hc) as [l0 [Hl0 Hc0]].
    apply in_flat_map in Hl0 as [p [_ Hp]].
    exact (proj1 (splitlines_chars _ _ _ Hp Hc0)). }
  split.
  - intros c Hc Hb. apply In_join in Hc as [[<-|[]]|[l [Hl Hc]]]; [reflexivity|].
    rewrite (Hls l c Hl Hc) in Hb. discriminate.
  - assert (Hcase : ls = [] \/ ls <> []) by (destruct ls; [left|right]; easy).
    destruct Hcase as [He|Hne]; [left; rewrite He; reflexivity|right].
    rewrite split_join.
    + intros l Hl. split; [|intros c; exact (Hls l c Hl)].
      unfold ls in Hl. apply filter_In in Hl as [_ Hl]. exact (nonblank_ex l Hl).
    + exact Hne.
    + intros l c Hl Hc Heq. subst c. specialize (Hls l NL Hl Hc). discriminate.
Qed.

(** X9: [naive_split_sections_from_text] maps exactly the eight tags
    education, experience, skills, projects, certifications, summary,
    languages and others, in that order; its values are the newline-joins of
    buckets that together hold each stripped non-blank line of the text that
    matches no section pattern, each once, and no header line. *)
Theorem naive_split_sections_props (text : pystr) :
  let out := naive_split_sections_from_text text in
  map fst out = SECTION_TAGS /\
  exists buckets : list (list pystr),
    map snd out = map (py_join [NL]) buckets /\
    Permutation (List.concat buckets) (filter no_header (naive_lines text)).
Proof.
  cbv zeta. unfold naive_split_sections_from_text.
  destruct (naive_fold_props (naive_lines text) (lit "others", initial_sections))
    as (_ & Hk & Hp).
  - simpl. tauto.
  - vm_compute. reflexivity.
  - split.
    + rewrite map_map. exact Hk.
    + exists (map snd (snd (fold_left naive_step (naive_lines text)
                                     (lit "others", initial_sections)))).
      split; [rewrite !map_map; reflexivity|]. rewrite Hp. reflexivity.
Qed.

(* ---------------- re.split ---------------- *)

(** The pieces of [re.split] for a pattern whose matches are non-empty runs
    of a class [p] hold no character of [p]. *)
Lemma split_from_pieces (t : pystr) (r : regex) (p : ascii -> bool) :
  (forall i i' j c, match_at t r i = Some (i', j, c) ->
     i < j /\ forall k, i <= k < j -> char_at_is t p k = true) ->
  (forall k, match_at t r k = None -> char_at_is t p k = false) ->
  forall fuel pos, List.length t < pos + fuel ->
  forall u, In u (split_from t r pos pos fuel) -> forall x, In x u -> p x = false /\ In x t.
Proof.
  intros Hm Hn. induction fuel as [|f IH]; intros pos Hf u Hu x Hx; simpl in Hu.
  - destruct Hu as [<-|[]]. rewrite skipn_all2 in Hx by lia. destruct Hx.
  - destruct (search t r pos) as [[[i j] c]|] eqn:Es.
    + unfold search in Es. apply search_from_Some in Es as (i0 & Hpos & _ & Hmi & Hbefore).
      pose proof (match_at_start _ _ _ _ _ _ Hmi) as Hi. subst i.
      destruct (Hm _ _ _ _ Hmi) as [Hij _].
      replace (j =? i0) with false in Hu by (symmetry; apply Nat.eqb_neq; lia).
      destruct Hu as [<-|Hu].
      * apply In_slice_pos in Hx as (k & Hk & Hx). split; [|exact (nth_error_In _ _ Hx)].
        rewrite <- (char_at_is_nth t p k x Hx). apply Hn, Hbefore. lia.
      * exact (IH j ltac:(lia) u Hu x Hx).
    + destruct Hu as [<-|[]]. apply In_skipn_pos in Hx as (k & Hk & Hx).
      split; [|exact (nth_error_In _ _ Hx)].
      rewrite <- (char_at_is_nth t p k x Hx). apply Hn.
      unfold search in Es. apply (search_from_None _ _ _ _ Es). lia.
Qed.

Lemma re_split_plus_pieces (t : pystr) (p : ascii -> bool) (u : pystr) (x : ascii) :
  In u (re_split t (plus p)) -> In x u -> p x = false /\ In x t.
Proof.
  destruct (plus_match_props t p) as [Hm Hn]. unfold re_split. intros Hu Hx.
  exact (split_from_pieces t (plus p) p Hm Hn (S (List.length t)) 0 ltac:(lia) u Hu x Hx).
Qed.


Lemma In_strip (p : ascii -> bool) (x : ascii) (s : pystr) : In x (strip_by p s) -> In x s.
Proof.
  intros H. destruct (strip_infix p s) as [a [b Hab]]. rewrite Hab.
  apply in_or_app. right. apply in_or_app. now left.
Qed.

Lemma nonblank_strip (l : pystr) : nonblank l = true -> py_strip l <> [].
Proof. unfold nonblank. destruct (py_strip l); [discriminate|]. intros _. discriminate. Qed.

(* ---------------- dedup ---------------- *)


(* ---------------- parse_resume_pdf ---------------- *)

Lemma header_scan_in (pats : list (pystr * regex)) (txt : pystr) (strong : bool) (cur : pystr) :
  header_scan pats txt strong cur = cur \/ In (header_scan pats txt strong cur) (map fst pats).
Proof.
  induction pats as [|[sec pat] ps IH]; simpl; [now left|].
  destruct (re_search_b pat txt); [destruct strong|]; (try (right; now left));
    destruct IH as [IH|IH]; auto.
Qed.

Lemma SECTION_TAGS_NoDup : NoDup SECTION_TAGS.
Proof. unfold SECTION_TAGS. simpl. repeat constructor; simpl; intuition discriminate. Qed.


Lemma SECTION_PATTERNS_tags (x : pystr) : In x (map fst SECTION_PATTERNS) -> In x SECTION_TAGS.
Proof. unfold SECTION_PATTERNS, SECTION_TAGS. cbn [map fst In]. intuition. Qed.

Lemma pr_line_step_inv (st : pystr * sections_dict) (l : line) :
  pr_inv st ->
  pr_inv (pr_line_step st l) /\
  Permutation (List.concat (map snd (snd (pr_line_step st l))))
              (List.concat (map snd (snd st)) ++
               filter (fun t => match t with [] => false | _ => true end)
                      [py_strip (line_text_raw l)]).
Proof.
  destruct st as [cur d]. intros [Hcur Hd]. cbn [fst snd] in Hcur, Hd. unfold pr_line_step.
  destruct (py_strip (line_text_raw l)) as [|a s] eqn:Et.
  - simpl. rewrite app_nil_r. split; [split; assumption|reflexivity].
  - set (cur' := if line_is_bold l || Qgt_b (line_font_size l) 11%Q
                  then header_scan SECTION_PATTERNS (py_lower (a :: s)) true cur else cur).
    assert (Hc' : In cur' SECTION_TAGS).
    { unfold cur'. destruct (_ || _); [|exact Hcur].
      destruct (header_scan_in SECTION_PATTERNS (py_lower (a :: s)) true cur) as [->|H];
        [exact Hcur|]. exact (SECTION_PATTERNS_tags _ H). }
    split; [split; [exact Hc'|cbn [snd]; now rewrite dict_append_keys]|].
    cbn [snd]. rewrite <- Hd in Hc'.
    pose proof SECTION_TAGS_NoDup as Hnd. rewrite <- Hd in Hnd.
    rewrite (dict_append_perm cur' (a :: s) d Hnd Hc'). reflexivity.
Qed.

Lemma pr_lines_inv (ls : list line) :
  forall st, pr_inv st ->
  pr_inv (fold_left pr_line_step ls st) /\
  Permutation (List.concat (map snd (snd (fold_left pr_line_step ls st))))
              (List.concat (map snd (snd st)) ++
               filter (fun t => match t with [] => false | _ => true end)
                      (map (fun l => py_strip (line_text_raw l)) ls)).
Proof.
  induction ls as [|l ls IH]; intros st Hst; simpl.
  - rewrite app_nil_r. split; [exact Hst|reflexivity].
  - destruct (pr_line_step_inv st l Hst) as [Hi Hp].
    destruct (IH _ Hi) as [Hi' Hp']. split; [exact Hi'|].
    rewrite Hp', Hp, <- app_assoc. apply Permutation_app_head.
    destruct (py_strip (line_text_raw l)); reflexivity.
Qed.

Lemma pr_blocks_inv (bs : list block) :
  forall st, pr_inv st ->
  pr_inv (fold_left pr_block_step bs st) /\
  Permutation (List.concat (map snd (snd (fold_left pr_block_step bs st))))
              (List.concat (map snd (snd st)) ++
               flat_map (fun b =>
                 filter (fun t => match t with [] => false | _ => true end)
                        (map (fun l => py_strip (line_text_raw l))
                             (match block_lines b with Some ls => ls | None => [] end))) bs).
Proof.
  induction bs as [|b bs IH]; intros st Hst; simpl.
  - rewrite app_nil_r. split; [exact Hst|reflexivity].
  - assert (Hb : pr_inv (pr_block_step st b) /\
                 Permutation (List.concat (map snd (snd (pr_block_step st b))))
                   (List.concat (map snd (snd st)) ++
                    filter (fun t => match t with [] => false | _ => true end)
                      (map (fun l => py_strip (line_text_raw l))
                           (match block_lines b with Some ls => ls | None => [] end)))).
    { unfold pr_block_step. destruct (block_lines b) as [ls|].
      - exact (pr_lines_inv ls st Hst).
      - simpl. rewrite app_nil_r. split; [exact Hst|reflexivity]. }
    destruct Hb as [Hi Hp]. destruct (IH _ Hi) as [Hi' Hp']. split; [exact Hi'|].
    rewrite Hp', Hp, <- app_assoc. reflexivity.
Qed.

Lemma pr_pages_inv (doc : document) :
  forall st, pr_inv st ->
  pr_inv (fold_left pr_page_step doc st) /\
  Permutation (List.concat (map snd (snd (fold_left pr_page_step doc st))))
              (List.concat (map snd (snd st)) ++ doc_lines doc).
Proof.
  induction doc as [|p doc IH]; intros st Hst; simpl.
  - rewrite app_nil_r. split; [exact Hst|reflexivity].
  - destruct (pr_blocks_inv (page_blocks p) st Hst) as [Hi Hp].
    destruct (IH _ Hi) as [Hi' Hp']. split; [exact Hi'|].
    unfold pr_page_step at 1. rewrite Hp'. unfold pr_page_step in Hp. rewrite Hp.
    rewrite <- app_assoc. reflexivity.
Qed.

(* ==================== extras ==================== *)

(** X10: every token [clean_skill_lines] returns is non-empty and made only
    of word characters and the characters , # + . - (no whitespace, no
    "/", "&" or "|"). *)
Theorem clean_skill_lines_tokens (lines : list pystr) :
  forall s, In s (clean_skill_lines lines) ->
  s <> [] /\ forall c, In c s -> (is_word c || c_any_of (lit ",#+.-") c) = true.
Proof.
  intros s Hs. unfold clean_skill_lines in Hs. apply in_flat_map in Hs as [line [_ Hs]].
  unfold clean_skill_line in Hs.
  set (l2 := sub (sub line re_pipe (lit ",")) re_skill_junk []) in Hs.
  set (l3 := py_strip (sub l2 (plus is_space) [SP])) in Hs.
  destruct l3 as [|a r] eqn:E3; [destruct Hs|]. rewrite <- E3 in Hs.
  apply in_map_iff in Hs as [u [<- Hu]]. apply filter_In in Hu as [Hu Hnb].
  split; [exact (nonblank_strip u Hnb)|].
  intros c Hc. apply In_strip in Hc.
  destruct (re_split_plus_pieces _ _ _ _ Hu Hc) as [Hsep Hin].
  unfold l3, py_strip in Hin. apply In_strip, sub_chars in Hin as [Hin|[<-|[]]];
    [|vm_compute in Hsep; discriminate].
  unfold l2, re_skill_junk in Hin. rewrite sub_chr_filter in Hin.
  apply filter_In in Hin as [_ Hkeep]. rewrite negb_involutive in Hkeep.
  pose proof (ascii_all (fun c => negb (skill_keep_c c) || skill_sep_c c ||
                                  is_word c || c_any_of (lit ",#+.-") c)
                        ltac:(vm_compute; reflexivity) c) as G.
  cbv beta in G. rewrite Hkeep, Hsep in G. exact G.
Qed.


(** X12: [parse_resume_pdf] maps exactly the eight tags education,
    experience, skills, projects, certifications, summary, languages and
    others, in that order; every stripped non-blank line of the document,
    header lines included, is put in exactly one section, and each value is
    the joined whitespace-collapsed lines of its section ("skills": the
    skills extracted from them). *)
Theorem parse_resume_pdf_props (stop_words_set : list pystr) (doc : document) :
  map fst (parse_resume_pdf stop_words_set doc) = SECTION_TAGS /\
  exists buckets : list (list pystr),
    Permutation (List.concat buckets) (doc_lines doc) /\
    Forall2 (fun kv b =>
               snd kv = if str_eqb (fst kv) (lit "skills")
                        then SSkills (extract_skills stop_words_set (py_join [NL] (pr_clean_lines b)))
                        else SText (py_join [NL] (pr_clean_lines b)))
            (parse_resume_pdf stop_words_set doc) buckets.
Proof.
  destruct (pr_pages_inv doc (lit "others", initial_sections)) as [[_ Hk] Hp];
    [split; [simpl; tauto|vm_compute; reflexivity]|].
  unfold parse_resume_pdf, parse_resume_buckets. split.
  - rewrite map_map. rewrite <- Hk. apply map_ext. intros [k v]. cbn [fst snd].
    destruct (str_eqb k (lit "skills")); reflexivity.
  - exists (map snd (snd (fold_left pr_page_step doc (lit "others", initial_sections)))).
    split; [rewrite Hp; reflexivity|].
    clear Hk Hp.
    induction (snd (fold_left pr_page_step doc (lit "others", initial_sections))) as [|[k v] l IH];
      cbn [map fst snd]; [constructor|].
    destruct (str_eqb k (lit "skills")) eqn:E; (constructor; [cbn [fst snd]; rewrite E; reflexivity|exact IH]).
Qed.

Lemma clean_skill_lines_tokens_witness :
  In (lit "C++,") (clean_skill_lines [lit "C++, SQL"]) /\
  (lit "C++," <> [] /\
   forall c, In c (lit "C++,") -> (is_word c || c_any_of (lit ",#+.-") c) = true).
Proof.
  assert (H : In (lit "C++,") (clean_skill_lines [lit "C++, SQL"])) by (vm_compute; left; reflexivity).
  split; [exact H|exact (clean_skill_lines_tokens [lit "C++, SQL"] (lit "C++,") H)].
Defined.
